(** * Secure File Shredder: a shallow embedding of src/secure-file-shredder.py

    The core of the shredder (path guard, pattern generator, shred executor,
    batch scheduler and free-space wiper) is embedded over an explicit
    world: an in-memory file system, the stream the program draws its
    random values from, what the free-space query reports, a trace of the
    write calls and the log.  Python code that can raise runs in a small
    exception-and-state monad; [try ... except] is [try_except].
    Bytes are lists of [Z] (each in 0..255).  Python floats are binary64
    values [m * 2^e] rounded to nearest, ties to even. *)

From Stdlib Require Import ZArith List String Ascii Bool Lia Permutation.
Import ListNotations.
Open Scope string_scope.
Open Scope list_scope.
Open Scope Z_scope.

(* ------------------------------------------------------------------ *)
(** ** Python exceptions *)

Inductive errno := ENOENT | EACCES | EPERM | EISDIR | EWOULDBLOCK | ENOLCK | EIO | ENOSPC.

(** Messages of the [Exception(...)] objects the module raises itself. *)
Inductive msg :=
| MsgLocked        (* "File is locked by another process" *)
| MsgVerify        (* "Verification failed - file may still exist" *)
| MsgNoFree.       (* "No free space to wipe" *)

Inductive exc :=
| OSError (e : errno)     (* OSError; IOError is an alias of it *)
| TypeError
| ValueError
| ZeroDivisionError
| Exception_ (m : msg).

(** [except IOError:] catches exactly the OSErrors. *)
Definition is_ioerror (e : exc) : bool :=
  match e with OSError _ => true | _ => false end.

(* ------------------------------------------------------------------ *)
(** ** Python floats (binary64)

    A float is [fm * 2^fe].  [round n e] rounds [n * 2^e] to 53
    significant bits, to nearest with ties to even (the values of this
    program are far from the subnormal and overflow ranges). *)

Record float := F { fm : Z; fe : Z }.

Definition round (n e : Z) : float :=
  let a := Z.abs n in
  let s := Z.log2 a + 1 - 53 in
  if s <=? 0 then F n e else
  let m := Z.shiftr a s in
  let r := a - Z.shiftl m s in
  let half := Z.shiftl 1 (s - 1) in
  let m' := if (half <? r) || ((r =? half) && Z.odd m) then m + 1 else m in
  F (Z.sgn n * m') (e + s).

(** [float(z)] for a Python int. *)
Definition float_of_Z (z : Z) : float := round z 0.

Definition fmul (a b : float) : float := round (fm a * fm b) (fe a + fe b).

Definition fsub (a b : float) : float :=
  let e := Z.min (fe a) (fe b) in
  round (fm a * 2 ^ (fe a - e) - fm b * 2 ^ (fe b - e)) e.

(** The literal [0.95] is the binary64 value 4278419646001971 / 2^52. *)
Definition f0_95 : float := F 4278419646001971 (-52).

(** [int(x)] truncates towards zero. *)
Definition int_of_float (x : float) : Z :=
  if 0 <=? fe x then fm x * 2 ^ fe x else Z.quot (fm x) (2 ^ (- fe x)).

(** Python compares an int and a float exactly. *)
Definition flt_Z (x : float) (z : Z) : bool :=
  if 0 <=? fe x then fm x * 2 ^ fe x <? z else fm x <? z * 2 ^ (- fe x).

(** Python numbers that flow through the wipe loop. *)
Inductive pynum := PInt (z : Z) | PFloat (x : float).

(** [x - n] for a float [x] and an int [n]. *)
Definition py_sub_fi (x : float) (n : Z) : pynum := PFloat (fsub x (float_of_Z n)).

(** [min(a, b)] keeps [a] unless [b < a]. *)
Definition py_min_int (a : Z) (b : pynum) : pynum :=
  match b with
  | PInt z => if z <? a then PInt z else PInt a
  | PFloat x => if flt_Z x a then PFloat x else PInt a
  end.

(* ------------------------------------------------------------------ *)
(** ** Bytes *)

(** [b * n] *)
Definition bytes_mul (b : list Z) (n : Z) : list Z := List.concat (List.repeat b (Z.to_nat n)).

(** [b[i:j]] for [0 <= i] and [0 <= j]. *)
Definition slice (b : list Z) (i j : Z) : list Z :=
  firstn (Z.to_nat (j - i)) (skipn (Z.to_nat i) b).

(** [~b & 0xFF] *)
Definition byte_not (b : Z) : Z := Z.land (Z.lnot b) 255.

(* ------------------------------------------------------------------ *)
(** ** Path strings (posixpath) *)

Definition slash : ascii := "/"%char.
Definition is_slash (c : ascii) : bool := Ascii.eqb c slash.

(** Position just after the last ['/'] of a character list. *)
Fixpoint after_last_slash (l : list ascii) (i acc : nat) : nat :=
  match l with
  | [] => acc
  | c :: l' => after_last_slash l' (S i) (if is_slash c then S i else acc)
  end.

Fixpoint drop_slashes (l : list ascii) : list ascii :=
  match l with
  | c :: l' => if is_slash c then drop_slashes l' else l
  | [] => []
  end.

(** [os.path.split(p)]: [i = p.rfind('/') + 1]; [head, tail = p[:i], p[i:]];
    [if head and head != '/' * len(head): head = head.rstrip('/')]. *)
Definition path_split (p : string) : string * string :=
  let l := list_ascii_of_string p in
  let i := after_last_slash l 0 0 in
  let head := firstn i l in
  let tail := skipn i l in
  let head' := if negb (forallb is_slash head)
               then rev (drop_slashes (rev head)) else head in
  (string_of_list_ascii head', string_of_list_ascii tail).

(** [os.path.join(a, b)] for a relative [b]. *)
Definition path_join (a b : string) : string :=
  let l := list_ascii_of_string a in
  match rev l with
  | [] => b
  | c :: _ => if is_slash c then (a ++ b)%string else (a ++ "/" ++ b)%string
  end.

(** [str(n)] for a non-negative int. *)
Fixpoint digits (fuel : nat) (n : Z) (acc : list ascii) : list ascii :=
  match fuel with
  | O => acc
  | S k =>
      let d := ascii_of_nat (48 + Z.to_nat (n mod 10)) in
      if n <? 10 then d :: acc else digits k (n / 10) (d :: acc)
  end.

Definition str_of_Z (n : Z) : string := string_of_list_ascii (digits 64 n []).

(* ------------------------------------------------------------------ *)
(** ** The world the program runs against *)

(** Whether another process holds an exclusive lock on a file, and a file
    system on which the lock call itself fails (e.g. ENOLCK over NFS). *)
Inductive lockst := Unlocked | LockedByOther | LockUnsupported.

Record file := File {
  fdata : list Z;          (* contents *)
  fwritable : bool;        (* this process may open it read-write *)
  flock : lockst;
  fmtime : Z;
  fowned : bool }.         (* owned by the user the process runs as *)

(** A file owned by the user the process runs as. *)
Abbreviation mkfile d wr l t := (File d wr l t true).

(** What the process may do in a directory: add and remove entries
    ([DWritable]); the same under the sticky bit, where only an entry's
    owner may remove or rename it ([DSticky], like /tmp); nothing, for want
    of write permission or on a read-only mount ([DReadOnly]); or the
    directory does not exist ([DMissing]). *)
Inductive dperm := DWritable | DSticky | DReadOnly | DMissing.

Inductive node := NFile (f : file) | NDir.

(** Log events, one per call of [self.log]. *)
Inductive logev :=
| LNotFound (p : string)           (* "File not found" warning *)
| LMetaWarn (e : exc)              (* "Couldn't modify metadata" warning *)
| LSuccess (p : string)            (* "Successfully shredded" *)
| LFailed (e : exc)                (* "Failed to shred ...: {e}" *)
| LWorkers (n : Z)                 (* "Using n parallel workers..." *)
| LShredding (i total : Z) (p : string)
| LComplete (succ total : Z)       (* "Shredding complete! succ/total ..." *)
| LTime                            (* "Time taken: ..." *)
| LWipeStart (dir : string)
| LWipeFree (free : Z)
| LWipeShredTemp
| LWipeDone (ok : bool)            (* completed successfully / with warnings *)
| LWipeFailed (e : exc).

Record world := World {
  fs : list (string * node);
  rng : Z -> Z;                    (* random stream, read at [rpos] *)
  rpos : Z;
  disk_free : option Z;            (* free bytes reported; None: the query raises *)
  fsync_ok : bool;
  wlog : list (string * Z * Z);    (* write calls: path, offset, length *)
  log : list logev;
  write_err : option errno;        (* error every write raises (a failing device, a full volume) *)
  dirs : string -> dperm }.        (* the process's rights in each directory *)

(** A world whose writes succeed and whose directories are all writable. *)
Abbreviation mkworld f r p d o wl lg := (World f r p d o wl lg None (fun _ => DWritable)).

Definition set_fs (w : world) (f : list (string * node)) : world :=
  World f (rng w) (rpos w) (disk_free w) (fsync_ok w) (wlog w) (log w) (write_err w) (dirs w).
Definition set_rpos (w : world) (r : Z) : world :=
  World (fs w) (rng w) r (disk_free w) (fsync_ok w) (wlog w) (log w) (write_err w) (dirs w).
Definition add_wlog (w : world) (x : string * Z * Z) : world :=
  World (fs w) (rng w) (rpos w) (disk_free w) (fsync_ok w) (wlog w ++ [x]) (log w) (write_err w) (dirs w).
Definition add_log (w : world) (x : logev) : world :=
  World (fs w) (rng w) (rpos w) (disk_free w) (fsync_ok w) (wlog w) (log w ++ [x]) (write_err w) (dirs w).

Fixpoint lookup (p : string) (d : list (string * node)) : option node :=
  match d with
  | [] => None
  | (q, n) :: d' => if String.eqb p q then Some n else lookup p d'
  end.

Fixpoint fs_delete (p : string) (d : list (string * node)) : list (string * node) :=
  match d with
  | [] => []
  | (q, n) :: d' => if String.eqb p q then fs_delete p d' else (q, n) :: fs_delete p d'
  end.

Definition fs_set (p : string) (n : node) (d : list (string * node)) :=
  (p, n) :: fs_delete p d.

(* ------------------------------------------------------------------ *)
(** ** The exception-and-state monad *)

Inductive res (A : Type) := Ok (a : A) | Err (e : exc).
Arguments Ok {A} a.
Arguments Err {A} e.

Definition M (A : Type) := world -> res A * world.

Definition ret {A} (a : A) : M A := fun w => (Ok a, w).
Definition raise {A} (e : exc) : M A := fun w => (Err e, w).
Definition bind {A B} (m : M A) (k : A -> M B) : M B :=
  fun w => match m w with
           | (Ok a, w') => k a w'
           | (Err e, w') => (Err e, w')
           end.
(** [try: m except <any>: h] *)
Definition try_except {A} (m : M A) (h : exc -> M A) : M A :=
  fun w => match m w with
           | (Ok a, w') => (Ok a, w')
           | (Err e, w') => h e w'
           end.

Notation "x <- m ;; k" := (bind m (fun x => k))
  (at level 61, m at next level, right associativity).
Notation "m ;;; k" := (bind m (fun _ => k))
  (at level 61, right associativity).

Definition log_ (e : logev) : M unit := fun w => (Ok tt, add_log w e).

(** [for x in l: body] threading a loop state. *)
Fixpoint for_each {A S} (l : list A) (body : A -> S -> M S) (s : S) : M S :=
  match l with
  | [] => ret s
  | x :: l' => bind (body x s) (for_each l' body)
  end.

(* ------------------------------------------------------------------ *)
(** ** The operating-system calls the module uses *)

Record handle := mkhandle { hpath : string; hpos : Z }.

Definition os_path_exists (p : string) : M bool :=
  fun w => (Ok (match lookup p (fs w) with Some _ => true | None => false end), w).

(** [os.path.getsize]: a directory reports its inode size. *)
Definition os_path_getsize (p : string) : M Z :=
  fun w => match lookup p (fs w) with
           | Some (NFile f) => (Ok (Z.of_nat (List.length (fdata f))), w)
           | Some NDir => (Ok 4096, w)
           | None => (Err (OSError ENOENT), w)
           end.

(** [open(p, 'r+b')] *)
Definition open_rw (p : string) : M handle :=
  fun w => match lookup p (fs w) with
           | Some (NFile f) =>
               if fwritable f then (Ok (mkhandle p 0), w) else (Err (OSError EACCES), w)
           | Some NDir => (Err (OSError EISDIR), w)
           | None => (Err (OSError ENOENT), w)
           end.

(** [os.path.dirname(p)] *)
Definition dirname (p : string) : string := fst (path_split p).

(** The error of adding an entry to a directory. *)
Definition create_err (d : dperm) : option errno :=
  match d with
  | DWritable | DSticky => None
  | DReadOnly => Some EACCES
  | DMissing => Some ENOENT
  end.

(** The error of removing (or renaming away) an entry the process owns or
    not. *)
Definition remove_err (d : dperm) (owned : bool) : option errno :=
  match d with
  | DWritable => None
  | DSticky => if owned then None else Some EPERM
  | DReadOnly => Some EACCES
  | DMissing => Some ENOENT
  end.

Definition node_owned (n : node) : bool :=
  match n with NFile f => fowned f | NDir => true end.

(** [open(p, 'wb')]: truncates a file, or creates one owned by the process
    where the directory allows it. *)
Definition open_wb (p : string) : M handle :=
  fun w => match lookup p (fs w) with
           | Some NDir => (Err (OSError EISDIR), w)
           | Some (NFile f) =>
               if fwritable f
               then (Ok (mkhandle p 0),
                     set_fs w (fs_set p (NFile (File [] true (flock f) (fmtime f) (fowned f))) (fs w)))
               else (Err (OSError EACCES), w)
           | None =>
               match create_err (dirs w (dirname p)) with
               | Some e => (Err (OSError e), w)
               | None => (Ok (mkhandle p 0), set_fs w (fs_set p (NFile (mkfile [] true Unlocked 0)) (fs w)))
               end
           end.

(** Leaving a [with] block closes the file; closing has no visible effect here. *)
Definition close (h : handle) : M unit := ret tt.

(** [fcntl.flock(f, LOCK_EX | LOCK_NB)] *)
Definition lock_ex_nb (h : handle) : M unit :=
  fun w => match lookup (hpath h) (fs w) with
           | Some (NFile f) =>
               match flock f with
               | Unlocked => (Ok tt, w)
               | LockedByOther => (Err (OSError EWOULDBLOCK), w)
               | LockUnsupported => (Err (OSError ENOLCK), w)
               end
           | _ => (Ok tt, w)
           end.

(** [fcntl.flock(f, LOCK_UN)] *)
Definition unlock (h : handle) : M unit := ret tt.

Definition seek (h : handle) (pos : Z) : M handle := ret (mkhandle (hpath h) pos).
Definition tell (h : handle) : Z := hpos h.
Definition flush (h : handle) : M unit := ret tt.

(** [os.fsync(f.fileno())] *)
Definition fsync (h : handle) : M unit :=
  fun w => if fsync_ok w then (Ok tt, w) else (Err (OSError EIO), w).

(** Contents after writing [c] at offset [pos]. *)
Definition overwrite_at (d : list Z) (pos : Z) (c : list Z) : list Z :=
  firstn (Z.to_nat pos) d ++ repeat 0 (Z.to_nat pos - List.length d)
  ++ c ++ skipn (Z.to_nat pos + List.length c) d.

(** [f.write(c)]: every call that succeeds is recorded in [wlog]. *)
Definition write (h : handle) (c : list Z) : M handle :=
  fun w => match lookup (hpath h) (fs w) with
           | Some (NFile f) =>
               match write_err w with
               | Some e => (Err (OSError e), w)
               | None =>
                   let f' := File (overwrite_at (fdata f) (hpos h) c) (fwritable f) (flock f) (fmtime f) (fowned f) in
                   (Ok (mkhandle (hpath h) (hpos h + Z.of_nat (List.length c))),
                    add_wlog (set_fs w (fs_set (hpath h) (NFile f') (fs w)))
                             (hpath h, hpos h, Z.of_nat (List.length c)))
               end
           | _ => (Err (OSError EIO), w)
           end.

(** [os.remove]: the directory must let the process remove the entry. *)
Definition os_remove (p : string) : M unit :=
  fun w => match lookup p (fs w) with
           | Some (NFile f) =>
               match remove_err (dirs w (dirname p)) (fowned f) with
               | Some e => (Err (OSError e), w)
               | None => (Ok tt, set_fs w (fs_delete p (fs w)))
               end
           | Some NDir => (Err (OSError EISDIR), w)
           | None => (Err (OSError ENOENT), w)
           end.

(** [os.utime(p, (t, t))]: setting explicit times needs the file's owner. *)
Definition os_utime (p : string) (t : Z) : M unit :=
  fun w => match lookup p (fs w) with
           | Some (NFile f) =>
               if fowned f
               then (Ok tt, set_fs w (fs_set p (NFile (File (fdata f) (fwritable f) (flock f) t (fowned f))) (fs w)))
               else (Err (OSError EPERM), w)
           | Some NDir => (Ok tt, w)
           | None => (Err (OSError ENOENT), w)
           end.

(** [os.rename(src, dst)] (POSIX: an existing file at [dst] is replaced);
    the entry leaves the directory of [src] and enters that of [dst]. *)
Definition os_rename (src dst : string) : M unit :=
  fun w => match lookup src (fs w) with
           | None => (Err (OSError ENOENT), w)
           | Some n =>
               match remove_err (dirs w (dirname src)) (node_owned n) with
               | Some e => (Err (OSError e), w)
               | None =>
                   match create_err (dirs w (dirname dst)) with
                   | Some e => (Err (OSError e), w)
                   | None =>
                       match lookup dst (fs w) with
                       | Some NDir => (Err (OSError EISDIR), w)
                       | _ => (Ok tt, set_fs w (fs_set dst n (fs_delete src (fs w))))
                       end
                   end
               end
           end.

(** [random.randint(a, b)] *)
Definition randint (a b : Z) : M Z :=
  fun w => (Ok (a + rng w (rpos w) mod (b - a + 1)), set_rpos w (rpos w + 1)).

(** [os.urandom(n)]: a float argument is a TypeError. *)
Definition urandom (n : pynum) : M (list Z) :=
  match n with
  | PFloat _ => raise TypeError
  | PInt k =>
      if k <? 0 then raise ValueError else
      fun w => (Ok (map (fun i => rng w (rpos w + Z.of_nat i) mod 256) (seq 0 (Z.to_nat k))),
                set_rpos w (rpos w + k))
  end.

(** Free bytes of the volume: [f_bsize * f_bavail] from [os.statvfs], or
    [GetDiskFreeSpaceExW] on Windows (which leaves 0 when it fails). *)
Definition query_free_space (dir : string) : M Z :=
  fun w => match disk_free w with
           | Some n => (Ok n, w)
           | None => (Err (OSError ENOENT), w)
           end.

(** [range(start, stop, step)] *)
Definition py_range (start stop step : Z) : M (list Z) :=
  if step =? 0 then raise ValueError else
  if 0 <? step
  then ret (map (fun k => start + step * Z.of_nat k)
                (seq 0 (Z.to_nat ((stop - start + step - 1) / step))))
  else ret (map (fun k => start + step * Z.of_nat k)
                (seq 0 (Z.to_nat ((start - stop - step - 1) / (- step))))).

Definition zrange (a b : Z) : list Z :=
  map (fun k => a + Z.of_nat k) (seq 0 (Z.to_nat (b - a))).

(* ------------------------------------------------------------------ *)
(** ** The application object ([FileShredderApp]) *)

(** Values of the ["pattern"] entries of [overwrite_patterns]: bytes, a
    list of bytes, or a marker string. *)
Inductive pat := PBytes (b : list Z) | PList (l : list (list Z)) | PStr (s : string).

Record app := mkapp {
  chunk_size : Z;                          (* self.config["chunk_size"] *)
  max_workers : Z;                         (* self.config["max_workers"] *)
  overwrite_patterns : list (string * pat);
  pattern_name : string;                   (* pattern_var.get(), or "DoD 5220.22-M" in CLI mode *)
  gutmann_patterns : list (list Z);
  protected_dirs : list string;
  home : string;                           (* what expanduser("~") reads *)
  cwd : string;
  files_to_shred : list string }.

Definition DEFAULT_PATTERNS : list (string * pat) :=
  [("Zero Fill", PBytes [0]);
   ("One Fill", PBytes [255]);
   ("DoD 5220.22-M", PList [[85]; [170]; [146; 73; 36; 146]]);
   ("Random Data", PStr "random");
   ("Gutmann", PStr "gutmann")].

Definition DEFAULT_CHUNK_SIZE : Z := 1024 * 1024.

(** [_generate_gutmann_patterns] *)
Definition generate_gutmann_patterns : M (list (list Z)) :=
  patterns <- for_each (zrange 0 4) (fun _ acc => b <- urandom (PInt 1);; ret (acc ++ [b])) [];;
  let patterns :=
    fold_left (fun acc i =>
                 acc ++ [if Z.even i then repeat (i mod 256) 4
                         else repeat ((i * 16) mod 256) 4])
              (zrange 4 19) patterns in
  let patterns :=
    fold_left (fun acc i => acc ++ [map byte_not (nth (Z.to_nat (i - 15)) acc [])])
              (zrange 19 34) patterns in
  b <- urandom (PInt 1);;
  ret (patterns ++ [b]).

(** [table[pass_num % len(table)] * (file_size // len(table[0]) + 1)], the
    expression of both the Gutmann and the list branch. *)
Definition cycle_pattern (table : list (list Z)) (pass_num file_size : Z) : M (list Z) :=
  let n := Z.of_nat (List.length table) in
  if n =? 0 then raise ZeroDivisionError else
  let block := nth (Z.to_nat (pass_num mod n)) table [] in
  let n0 := Z.of_nat (List.length (nth 0 table [])) in
  if n0 =? 0 then raise ZeroDivisionError else
  ret (bytes_mul block (file_size / n0 + 1)).

(** [next((p for p in self.overwrite_patterns if p["name"] == pattern_name), None)] *)
Definition selected_pattern (a : app) : option (string * pat) :=
  find (fun np => String.eqb (fst np) (pattern_name a)) (overwrite_patterns a).

(** [get_overwrite_pattern] *)
Definition get_overwrite_pattern (a : app) (pass_num file_size : Z) : M (list Z) :=
  match selected_pattern a with
  | None => b <- urandom (PInt 1);; ret (bytes_mul b file_size)
  | Some (_, pattern) =>
      match pattern with
      | PStr s =>
          if String.eqb s "random" then urandom (PInt file_size)
          else if String.eqb s "gutmann" then cycle_pattern (gutmann_patterns a) pass_num file_size
          else b <- urandom (PInt 1);; ret (bytes_mul b file_size)
      | PList l => cycle_pattern l pass_num file_size
      | PBytes b => ret (bytes_mul b file_size)
      end
  end.

(* ------------------------------------------------------------------ *)
(** ** Path guard *)

Fixpoint split_slash (l cur : list ascii) : list (list ascii) :=
  match l with
  | [] => [rev cur]
  | c :: l' => if is_slash c then rev cur :: split_slash l' [] else split_slash l' (c :: cur)
  end.

Definition list_ascii_eqb (a b : list ascii) : bool :=
  String.eqb (string_of_list_ascii a) (string_of_list_ascii b).

Definition dot : list ascii := ["."%char].
Definition dotdot : list ascii := ["."%char; "."%char].

(** One step of the component loop of [posixpath.normpath]; [stk] holds
    [new_comps] reversed. *)
Definition normpath_step (initial_slashes : nat) (stk : list (list ascii)) (comp : list ascii) :=
  if (match comp with [] => true | _ => false end) || list_ascii_eqb comp dot then stk
  else if negb (list_ascii_eqb comp dotdot)
          || ((initial_slashes =? 0)%nat && match stk with [] => true | _ => false end)
          || match stk with top :: _ => list_ascii_eqb top dotdot | [] => false end
  then comp :: stk
  else match stk with [] => stk | _ :: stk' => stk' end.

Fixpoint join_slash (l : list (list ascii)) : list ascii :=
  match l with
  | [] => []
  | [c] => c
  | c :: l' => c ++ [slash] ++ join_slash l'
  end.

(** [posixpath.normpath] *)
Definition normpath (p : string) : string :=
  let l := list_ascii_of_string p in
  match l with
  | [] => "."
  | _ =>
    let initial_slashes :=
      match l with
      | c1 :: c2 :: rest =>
          if is_slash c1 then
            if is_slash c2 then
              match rest with c3 :: _ => if is_slash c3 then 1%nat else 2%nat | [] => 2%nat end
            else 1%nat
          else 0%nat
      | [c1] => if is_slash c1 then 1%nat else 0%nat
      | [] => 0%nat
      end in
    let comps := rev (fold_left (normpath_step initial_slashes) (split_slash l []) []) in
    let body := repeat slash initial_slashes ++ join_slash comps in
    match body with [] => "." | _ => string_of_list_ascii body end
  end.

(** [os.path.abspath] relative to the working directory [cwd]. *)
Definition abspath (cwd p : string) : string :=
  match list_ascii_of_string p with
  | c :: _ => if is_slash c then normpath p else normpath (path_join cwd p)
  | [] => normpath (path_join cwd p)
  end.

(** [os.path.expanduser("~" + rest)] with [$HOME] = [home]. *)
Definition expanduser_home (home rest : string) : string :=
  let h := string_of_list_ascii (rev (drop_slashes (rev (list_ascii_of_string home)))) in
  match (h ++ rest)%string with EmptyString => "/" | s => s end.

Definition user_dirs (home : string) : list string :=
  [expanduser_home home ""; expanduser_home home "/Desktop";
   expanduser_home home "/Documents"; expanduser_home home "/Downloads"].

(** [is_protected_location]: the allowlist loop, then the protected loop. *)
Definition is_protected_location (a : app) (path : string) : bool :=
  let abs_path := abspath (cwd a) path in
  if existsb (fun u => String.prefix (abspath (cwd a) u) abs_path) (user_dirs (home a))
  then false
  else existsb (fun d => let d' := abspath (cwd a) d in
                         negb (String.eqb d' "") && String.prefix d' abs_path)
               (protected_dirs a).

(* ------------------------------------------------------------------ *)
(** ** Shred executor *)

(** [with open(...) as f: body]: the file is closed on both exits. *)
Definition with_file {A} (f : handle) (body : M A) : M A :=
  try_except (r <- body;; close f;;; ret r) (fun e => close f;;; raise e).

(** [is_file_locked] (the POSIX branch; the Windows branch has the same
    shape with [msvcrt.locking] in place of [fcntl.flock]). *)
Definition is_file_locked (filepath : string) : M bool :=
  try_except
    (f <- open_rw filepath;;
     with_file f
       (try_except (lock_ex_nb f;;; unlock f;;; ret false)
                   (fun e => if is_ioerror e then ret true else raise e)))
    (fun _ => ret false).

(** The three rename attempts of [destroy_metadata]; the bare [except:]
    ends the loop. *)
Fixpoint rename_attempts (k : nat) (dirname temp_name : string) : M string :=
  match k with
  | O => ret temp_name
  | S k' =>
      n <- randint 0 9999999;;
      let new_name := path_join dirname ("shred_" ++ str_of_Z n)%string in
      ok <- try_except (os_rename temp_name new_name;;; ret true) (fun _ => ret false);;
      if ok then rename_attempts k' dirname new_name else ret temp_name
  end.

(** [destroy_metadata] *)
Definition destroy_metadata (file_path : string) : M string :=
  try_except
    (random_time <- randint 0 (2 ^ 31 - 1);;
     os_utime file_path random_time;;;
     rename_attempts 3 (fst (path_split file_path)) file_path)
    (fun e => log_ (LMetaWarn e);;; ret file_path).

(** The value of [os.path.exists(p) or os.path.getsize(p)]. *)
Inductive pyval := VBool (b : bool) | VInt (z : Z).

(** [v == 0]; [True == 0] and [False == 0] compare as 1 and 0. *)
Definition py_eq_0 (v : pyval) : bool :=
  match v with VBool b => negb b | VInt z => z =? 0 end.

(** [verify_shred]: [not (os.path.exists(p) or os.path.getsize(p)) == 0]
    parses as [not ((...) == 0)]. *)
Definition verify_shred (file_path : string) : M bool :=
  try_except
    (e <- os_path_exists file_path;;
     v <- (if e then ret (VBool true)
           else (s <- os_path_getsize file_path;; ret (VInt s)));;
     ret (negb (py_eq_0 v)))
    (fun _ => ret true).

(** Lines 510-512 of [shred_file]:
    [if verify and not self.verify_shred(file_path): raise Exception(...)]. *)
Definition verification_step (file_path : string) (verify : bool) : M unit :=
  if verify then
    ok <- verify_shred file_path;;
    if ok then ret tt else raise (Exception_ MsgVerify)
  else ret tt.

(** The chunk loop of a pass (lines 497-500). *)
Definition write_chunks (pattern : list Z) (chunk_size : Z) (positions : list Z) (h : handle) : M handle :=
  for_each positions
    (fun pos h =>
       let chunk := if 1 <? Z.of_nat (List.length pattern)
                    then slice pattern pos (pos + chunk_size)
                    else slice pattern 0 chunk_size in
       h <- write h chunk;;
       flush h;;; ret h) h.

(** Writing one pass's pattern (lines 493-505). *)
Definition write_pattern (chunk_size : Z) (pattern : list Z) (file_size : Z) (h : handle) : M handle :=
  h <- seek h 0;;
  h <- (if chunk_size * 10 <? file_size
        then positions <- py_range 0 file_size chunk_size;;
             write_chunks pattern chunk_size positions h
        else write h (slice pattern 0 file_size));;
  flush h;;;
  fsync h;;;
  ret h.

(** One overwrite pass (lines 492-505). *)
Definition overwrite_pass (a : app) (file_size : Z) (i : Z) (h : handle) : M handle :=
  pattern <- get_overwrite_pattern a i file_size;;
  write_pattern (chunk_size a) pattern file_size h.

(** [shred_file] *)
Definition shred_file (a : app) (file_path : string) (passes : Z) (verify destroy_md : bool) : M bool :=
  try_except
    (ex <- os_path_exists file_path;;
     if negb ex then (log_ (LNotFound file_path);;; ret false) else
     locked <- is_file_locked file_path;;
     if locked then raise (Exception_ MsgLocked) else
     file_size <- os_path_getsize file_path;;
     file_path <- (if destroy_md then destroy_metadata file_path else ret file_path);;
     file <- open_rw file_path;;
     with_file file (for_each (zrange 0 passes) (overwrite_pass a file_size) file);;;
     os_remove file_path;;;
     verification_step file_path verify;;;
     log_ (LSuccess file_path);;;
     ret true)
    (fun e => log_ (LFailed e);;; ret false).

(* ------------------------------------------------------------------ *)
(** ** Batch scheduler *)

(** A pool thread stores the outcome of its call, exception included. *)
Definition submit {A} (m : M A) : M (res A) :=
  fun w => let (r, w') := m w in (Ok r, w').

(** [future.result()] re-raises a stored exception. *)
Definition future_result {A} (r : res A) : M A :=
  match r with Ok a => ret a | Err e => raise e end.

(** The per-file outcomes of [shred_files_threaded], in the order they are
    collected.  In the parallel branch the futures run and complete in the
    order [order] (indices into the file list), as [as_completed] yields
    them; the sequential branch follows the list. *)
Definition batch_outcomes (a : app) (passes : Z) (verify destroy_md : bool) (order : list nat)
  : M (list (string * bool)) :=
  let files := files_to_shred a in
  let total_files := Z.of_nat (List.length files) in
  if (1 <? max_workers a) && (1 <? total_files) then
    log_ (LWorkers (max_workers a));;;
    for_each order
      (fun i acc =>
         match nth_error files i with
         | Some file =>
             r <- submit (shred_file a file passes verify destroy_md);;
             ok <- future_result r;;
             ret (acc ++ [(file, ok)])
         | None => ret acc
         end) []
  else
    for_each (combine (zrange 1 (total_files + 1)) files)
      (fun ifile acc =>
         log_ (LShredding (fst ifile) total_files (snd ifile));;;
         ok <- shred_file a (snd ifile) passes verify destroy_md;;
         ret (acc ++ [(snd ifile, ok)])) [].

Definition count_success (outs : list (string * bool)) : Z :=
  fold_left (fun (c : Z) (o : string * bool) => if snd o then c + 1 else c) outs 0.

Definition count_failed (outs : list (string * bool)) : Z :=
  fold_left (fun (c : Z) (o : string * bool) => if snd o then c else c + 1) outs 0.

(** [shred_files_threaded]: returns [(success_count, total_files)], the
    numbers of the summary line. *)
Definition shred_files_threaded (a : app) (passes : Z) (verify destroy_md : bool) (order : list nat)
  : M (Z * Z) :=
  let total_files := Z.of_nat (List.length (files_to_shred a)) in
  outs <- batch_outcomes a passes verify destroy_md order;;
  let success_count := count_success outs in
  log_ (LComplete success_count total_files);;;
  log_ LTime;;;
  ret (success_count, total_files).

(* ------------------------------------------------------------------ *)
(** ** Free-space wiper *)

(** [wipe_size = free_space * 0.95] *)
Definition wipe_size_of (free_space : Z) : float := fmul (float_of_Z free_space) f0_95.

(** The body of the fill loop:
    [f.write(os.urandom(min(chunk_size, wipe_size - f.tell()))); f.flush()]. *)
Definition fill_step (a : app) (wipe_size : float) (_ : Z) (f : handle) : M handle :=
  data <- urandom (py_min_int (chunk_size a) (py_sub_fi wipe_size (tell f)));;
  f <- write f data;;
  flush f;;;
  ret f.

(** Lines 549-552: the fill of the temporary file. *)
Definition fill_temp (a : app) (temp_file : string) (wipe_size : float) : M unit :=
  f <- open_wb temp_file;;
  with_file f
    (steps <- py_range 0 (int_of_float wipe_size) (chunk_size a);;
     for_each steps (fill_step a wipe_size) f);;;
  ret tt.

(** Lines 524-544: choosing the temporary path and querying free space. *)
Definition wipe_prepare (a : app) (directory : option string) : M (string * Z) :=
  let target_dir := match directory with
                    | Some d => if String.eqb d "" then expanduser_home (home a) "" else d
                    | None => expanduser_home (home a) ""
                    end in
  n <- randint 0 9999999;;
  let temp_file := path_join target_dir ("shredder_temp_" ++ str_of_Z n ++ ".tmp")%string in
  log_ (LWipeStart target_dir);;;
  free_space <- query_free_space target_dir;;
  if free_space <=? 0 then raise (Exception_ MsgNoFree) else
  log_ (LWipeFree free_space);;;
  ret (temp_file, free_space).

(** Lines 546-563: fill, then shred the temporary file. *)
Definition wipe_run (a : app) (tf : string * Z) : M bool :=
  fill_temp a (fst tf) (wipe_size_of (snd tf));;;
  log_ LWipeShredTemp;;;
  success <- shred_file a (fst tf) 3 true true;;
  log_ (LWipeDone success);;;
  ret success.

(** [wipe_free_space] *)
Definition wipe_free_space (a : app) (directory : option string) : M bool :=
  try_except (tf <- wipe_prepare a directory;; wipe_run a tf)
             (fun e => log_ (LWipeFailed e);;; ret false).

(* ------------------------------------------------------------------ *)
(** ** Concrete configurations used by the examples *)

Definition demo_file (d : list Z) : node := NFile (mkfile d true Unlocked 0).

(** A world with three files, a random stream, 100 free bytes and working fsync. *)
Definition demo_world : world :=
  mkworld [("/home/alice/a.txt", demo_file [1; 2; 3]);
           ("/home/alice/b.txt", NFile (mkfile [9; 9] true LockedByOther 0));
           ("/home/alice/c.txt", demo_file [5; 6; 7; 8])]
          (fun i => 7 * i + 3) 0 (Some 100) true [] [].

Definition demo_gutmann : list (list Z) :=
  match fst (generate_gutmann_patterns demo_world) with Ok t => t | Err _ => [] end.

(** The application in CLI mode (pattern "DoD 5220.22-M") with a given chunk
    size and file list. *)
Definition cli_app (chunk : Z) (files : list string) : app :=
  mkapp chunk 4 DEFAULT_PATTERNS "DoD 5220.22-M" demo_gutmann ["/etc"; "/usr"]
        "/home/alice" "/home/alice" files.

(** Length of the buffer a pattern computation returns, if it returns. *)
Definition out_length (m : M (list Z)) (w : world) : option Z :=
  match fst (m w) with Ok b => Some (Z.of_nat (List.length b)) | Err _ => None end.


(** A volume that reports 100 free bytes, on which every write fails with
    ENOSPC (another process took the space after the query). *)
Definition full_volume_world : world :=
  World (fs demo_world) (rng demo_world) (rpos demo_world) (Some 100) true [] []
        (Some ENOSPC) (fun _ => DWritable).



(* ------------------------------------------------------------------ *)
(** ** Frame relations used by the proofs *)

(** [m] relates the world before and after it by [R], however it ends. *)
Definition preserves {A} (R : world -> world -> Prop) (m : M A) : Prop :=
  forall w, R w (snd (m w)).

(** No write call is made. *)
Definition same_wlog (w w' : world) : Prop := wlog w' = wlog w.

(** The files, the write calls and the fsync behaviour are unchanged. *)
Definition same_disk (w w' : world) : Prop :=
  fs w' = fs w /\ wlog w' = wlog w /\ fsync_ok w' = fsync_ok w /\ dirs w' = dirs w.

(** Every path but [q] keeps what it held. *)
Definition same_except (q : string) (w w' : world) : Prop :=
  forall r, r <> q -> lookup r (fs w') = lookup r (fs w).

(** [m] changes the files only at [q] and returns a handle on [q]. *)
Definition stays (q : string) (m : M handle) : Prop :=
  forall w, same_except q w (snd (m w)) /\
            forall h' w', m w = (Ok h', w') -> hpath h' = q.

(* ------------------------------------------------------------------ *)
(** ** The file list: drag and drop, file dialogs, command line *)

(** Messages these functions pass to [self.log]. *)
Inductive uimsg :=
| UAddedFile (p : string)                 (* "Added file: {p}" *)
| USkippedProtected (p : string)          (* "Skipped protected location: {p}" *)
| UAddedFromFolder (n : Z) (folder : string)  (* "Added {n} items from folder: ..." *)
| UNoFilesFromFolder (folder : string)    (* "No files added from folder: ..." *)
| UOnlyAdded (n total : Z)                (* "Only added {n} of {total} items" *)
| UNoFilesToShredCli                      (* "No files to shred after filtering ..." *)
| UStartingCli (n : Z)                    (* "Starting shredding of {n} files..." *)
| UNoFilesToShred.                        (* start_shredding: "No files to shred" *)

(** The UI state these functions update: the application (its
    [files_to_shred]) and the messages logged so far. *)
Definition uistate := (app * list uimsg)%type.

Definition set_files (a : app) (l : list string) : app :=
  mkapp (chunk_size a) (max_workers a) (overwrite_patterns a) (pattern_name a)
        (gutmann_patterns a) (protected_dirs a) (home a) (cwd a) l.

(** Python's [x in lst] on a list of strings. *)
Definition py_in (x : string) (l : list string) : bool := existsb (String.eqb x) l.

(** [os.path.isfile] and [os.path.isdir] against the file system. *)
Definition is_file (d : list (string * node)) (p : string) : bool :=
  match lookup p d with Some (NFile _) => true | _ => false end.
Definition is_dir (d : list (string * node)) (p : string) : bool :=
  match lookup p d with Some NDir => true | _ => false end.

(** [add_files]: [chosen] is what [askopenfilenames] returned. *)
Definition add_files (chosen : list string) (s : uistate) : uistate :=
  fold_left (fun (s : uistate) file =>
    let (a, m) := s in
    if py_in file (files_to_shred a) then (a, m)
    else if is_protected_location a file then (a, m ++ [USkippedProtected file])
    else (set_files a (files_to_shred a ++ [file]), m ++ [UAddedFile file]))
    chosen s.

(** [_add_folder_contents]; [walk folder] is the list of the paths
    [os.path.join(root, file)] in the order [os.walk(folder)] yields them.
    [os.walk] reports no error by default and [is_protected_location]
    catches its own, so the [except] branch is not reached.  Returns the
    new state and [added_count]. *)
Definition add_folder_contents (walk : string -> list string) (folder_path : string)
  (s : uistate) : uistate * Z :=
  fold_left (fun (acc : uistate * Z) file_path =>
    let '((a, m), n) := acc in
    if negb (py_in file_path (files_to_shred a)) &&
       negb (is_protected_location a file_path)
    then ((set_files a (files_to_shred a ++ [file_path]), m), n + 1)
    else ((a, m), n))
    (walk folder_path) (s, 0).

(** [add_folder]; [folder] is what [askdirectory] returned ("" on cancel). *)
Definition add_folder (walk : string -> list string) (folder : string) (s : uistate) : uistate :=
  if String.eqb folder EmptyString then s else
  let '((a, m), added) := add_folder_contents walk folder s in
  if 0 <? added then (a, m ++ [UAddedFromFolder added folder])
  else (a, m ++ [UNoFilesFromFolder folder]).

(** [str.find(c, start)] on a string seen as its list of characters. *)
Fixpoint find_aux (c : ascii) (s : list ascii) (i : nat) : option nat :=
  match s with
  | [] => None
  | x :: r => if Ascii.eqb x c then Some i else find_aux c r (S i)
  end.
Definition str_find (s : list ascii) (c : ascii) (start : nat) : option nat :=
  find_aux c (skipn start s) start.

(** [s[i:j]] for [0 <= i <= j]. *)
Definition str_slice (s : list ascii) (i j : nat) : list ascii :=
  firstn (j - i) (skipn i s).

(** [str.isspace] on one character (the ASCII whitespace). *)
Definition is_space (c : ascii) : bool :=
  let n := nat_of_ascii c in ((9 <=? n) && (n <=? 13))%nat || ((28 <=? n) && (n <=? 32))%nat.

Fixpoint lstrip (s : list ascii) : list ascii :=
  match s with [] => [] | c :: r => if is_space c then lstrip r else s end.

(** [str.strip()]. *)
Definition strip (s : list ascii) : list ascii := rev (lstrip (rev (lstrip s))).

(** The [while start != -1] loop of [on_drop]; each round moves [start]
    past the closing brace it found, so [List.length s] rounds suffice. *)
Fixpoint brace_loop (fuel : nat) (s : list ascii) (start : nat) : list (list ascii) :=
  match fuel with
  | O => []
  | S fuel' =>
      match str_find s "}"%char start with
      | None => []
      | Some e =>
          str_slice s (start + 1) e ::
          match str_find s "{"%char e with
          | None => []
          | Some st => brace_loop fuel' s st
          end
      end
  end.

(** The [items] of [on_drop] for [event.data]. *)
Definition drop_items (data : list ascii) : list (list ascii) :=
  if existsb (Ascii.eqb "{"%char) data && existsb (Ascii.eqb "}"%char) data then
    match str_find data "{"%char 0 with
    | None => []
    | Some start => brace_loop (List.length data) data start
    end
  else [strip data].

(** One braced path of a Windows drop, [{path}], followed by what
    separates it from the next. *)
Definition drop_chunk (x : list ascii * list ascii) : list ascii :=
  "{"%char :: fst x ++ "}"%char :: snd x.

(** [on_drop] for [event.data = data] on the file system [d]. *)
Definition on_drop (walk : string -> list string) (d : list (string * node))
  (data : list ascii) (s : uistate) : uistate :=
  let items := drop_items data in
  let '((a, m), added_count) :=
    fold_left (fun (acc : uistate * Z) item0 =>
      let '((a, m), n) := acc in
      let item := string_of_list_ascii (strip item0) in
      if String.eqb item EmptyString then ((a, m), n)
      else if is_file d item && negb (py_in item (files_to_shred a)) then
        if negb (is_protected_location a item)
        then ((set_files a (files_to_shred a ++ [item]), m ++ [UAddedFile item]), n + 1)
        else ((a, m), n)
      else if is_dir d item then
        let '((a', m'), added) := add_folder_contents walk item (a, m) in
        ((a', if 0 <? added then m' ++ [UAddedFromFolder added item] else m'), n + added)
      else ((a, m), n))
      items (s, 0) in
  let total := Z.of_nat (List.length items) in
  if added_count <? total then (a, m ++ [UOnlyAdded added_count total]) else (a, m).

(** The [expanded_paths] of [shred_files_cli]. *)
Definition cli_expand (walk : string -> list string) (d : list (string * node))
  (a : app) (paths : list string) : list string :=
  fold_left (fun acc path =>
    if is_dir d path
    then acc ++ filter (fun fp => negb (is_protected_location a fp)) (walk path)
    else if is_file d path && negb (is_protected_location a path) then acc ++ [path]
    else acc) paths [].

(** [start_shredding] in CLI mode: [Some (passes, verify, destroy_metadata)]
    when it starts the [shred_files_threaded] thread. *)
Definition start_shredding_cli (cli_passes : Z) (s : uistate) : uistate * option (Z * bool * bool) :=
  let (a, m) := s in
  match files_to_shred a with
  | [] => ((a, m ++ [UNoFilesToShred]), None)
  | _ => ((a, m), Some (cli_passes, true, true))
  end.

(** [shred_files_cli] up to the start of the shredding thread. *)
Definition shred_files_cli (walk : string -> list string) (d : list (string * node))
  (paths : list string) (passes : Z) (s : uistate) : uistate * option (Z * bool * bool) :=
  let (a, m) := s in
  let a' := set_files a (cli_expand walk d a paths) in
  match files_to_shred a' with
  | [] => ((a', m ++ [UNoFilesToShredCli]), None)
  | l => start_shredding_cli passes (a', m ++ [UStartingCli (Z.of_nat (List.length l))])
  end.

(* ------------------------------------------------------------------ *)
(** ** Protected directories of the advanced options *)

Definition set_protected (a : app) (l : list string) : app :=
  mkapp (chunk_size a) (max_workers a) (overwrite_patterns a) (pattern_name a)
        (gutmann_patterns a) l (home a) (cwd a) (files_to_shred a).

(** [add_protected_dir]; [dir_path] is what [askdirectory] returned ("" on
    cancel).  The list box mirrors [self.protected_dirs]. *)
Definition add_protected_dir (dir_path : string) (a : app) : app :=
  if negb (String.eqb dir_path EmptyString) && negb (py_in dir_path (protected_dirs a))
  then set_protected a (protected_dirs a ++ [dir_path])
  else a.

(** [list.pop(index)]: [None] when it raises [IndexError]. *)
Definition py_pop {A} (l : list A) (index : nat) : option (list A) :=
  if (index <? List.length l)%nat then Some (firstn index l ++ skipn (S index) l) else None.

(** [remove_protected_dir]; [selection] is the list box's [curselection()]. *)
Definition remove_protected_dir (selection : list nat) (a : app) : option app :=
  match selection with
  | [] => Some a
  | index :: _ =>
      match py_pop (protected_dirs a) index with
      | Some l => Some (set_protected a l)
      | None => None
      end
  end.

(** The allowlist test of [is_protected_location]. *)
Definition in_user_dirs (a : app) (path : string) : bool :=
  existsb (fun u => String.prefix (abspath (cwd a) u) (abspath (cwd a) path)) (user_dirs (home a)).

(** The test one protected directory makes in [is_protected_location]. *)
Definition under_dir (a : app) (d path : string) : bool :=
  let d' := abspath (cwd a) d in negb (String.eqb d' "") && String.prefix d' (abspath (cwd a) path).

(* ------------------------------------------------------------------ *)
(** ** Configuration file *)

(** The Python values a configuration holds. *)
#[warnings="-register-all"]
Inductive pyobj :=
| ONone
| OBool (b : bool)
| OInt (z : Z)
| OFloat (x : float)
| OStr (s : string)
| OBytes (b : list Z)
| OList (l : list pyobj)
| ODict (d : list (string * pyobj)).

(** A dict as the list of its items in insertion order. *)
Definition pydict := list (string * pyobj).

(** [d[k] = v]: replaces the value in place, or appends a new key. *)
Fixpoint dict_set (k : string) (v : pyobj) (d : pydict) : pydict :=
  match d with
  | [] => [(k, v)]
  | (k', v') :: r => if String.eqb k k' then (k, v) :: r else (k', v') :: dict_set k v r
  end.

(** [d.get(k)], [None] for a missing key. *)
Definition dict_get (k : string) (d : pydict) : option pyobj :=
  match find (fun kv => String.eqb (fst kv) k) d with Some (_, v) => Some v | None => None end.

(** [{**d, **c}] *)
Definition dict_merge (d c : pydict) : pydict :=
  fold_left (fun acc kv => dict_set (fst kv) (snd kv) acc) c d.

Definition DEFAULT_CONFIG : pydict :=
  [("passes", OInt 3);
   ("verify", OBool true);
   ("destroy_metadata", OBool true);
   ("chunk_size", OInt (1024 * 1024));
   ("max_workers", OInt 4);
   ("overwrite_patterns", OList
      [ODict [("name", OStr "Zero Fill"); ("pattern", OBytes [0])];
       ODict [("name", OStr "One Fill"); ("pattern", OBytes [255])];
       ODict [("name", OStr "DoD 5220.22-M");
              ("pattern", OList [OBytes [85]; OBytes [170]; OBytes [146; 73; 36; 146]])];
       ODict [("name", OStr "Random Data"); ("pattern", OStr "random")];
       ODict [("name", OStr "Gutmann"); ("pattern", OStr "gutmann")]])].

(** What [shredder_config.json] holds: [None] when it does not exist,
    [Some None] when [json.load] raises on it, [Some (Some v)] when
    [json.load] returns [v]. *)
Definition cfgfile := option (option pyobj).

(** [load_config]; the error message goes to stdout. *)
Definition load_config (file : cfgfile) : pydict :=
  match file with
  | Some (Some (ODict config)) => dict_merge DEFAULT_CONFIG config
  | _ => DEFAULT_CONFIG
  end.

(** What [json.dump] accepts: [bytes] raise [TypeError]. *)
Fixpoint json_serializable (v : pyobj) : bool :=
  match v with
  | OBytes _ => false
  | OList l => forallb json_serializable l
  | ODict d => forallb (fun kv => json_serializable (snd kv)) d
  | _ => true
  end.

(** [save_config] with [open(CONFIG_FILE, 'w')] succeeding when [can_open]:
    the new file and whether the warning "Config save error" is logged.
    [json.dump] writes the encoding chunk by chunk into the truncated file;
    when it raises, the file holds a prefix of the encoding that stops
    before the closing brace, on which [json.load] raises. *)
Definition save_config (can_open : bool) (config : pydict) (file : cfgfile) : cfgfile * bool :=
  if negb can_open then (file, true)
  else if json_serializable (ODict config) then (Some (Some (ODict config)), false)
  else (Some None, true).

(** The updates of [save_advanced_options] before it calls [save_config]. *)
Definition advanced_options_config (config : pydict) (chunk_size max_workers : Z)
  (protected_dirs : list string) : pydict :=
  dict_set "protected_dirs" (OList (map OStr protected_dirs))
    (dict_set "max_workers" (OInt max_workers) (dict_set "chunk_size" (OInt chunk_size) config)).

(* ================================================================== *)
(** * Properties *)

(** ** Pattern generator *)

(** C5: the Gutmann table built by [_generate_gutmann_patterns] has 35
    entries and, for every k in 0..15 (half-open, i.e. the fifteen entries
    19..33), entry [19+k] is the byte-wise complement of entry [4+k],
    whatever the random bytes drawn for entries 0-3 and 34. *)
Theorem gutmann_table_complement : forall w,
  match fst (generate_gutmann_patterns w) with
  | Ok table =>
      List.length table = 35%nat /\
      forall k, (k < 15)%nat ->
        nth (19 + k) table [] = map byte_not (nth (4 + k) table [])
  | Err _ => False
  end.
Proof.
  intro w. cbn.
  split; [reflexivity|].
  intros k Hk.
  do 15 (destruct k as [|k]; [reflexivity|]). lia.
Qed.

Lemma bytes_mul_length : forall b n,
  0 <= n -> Z.of_nat (List.length (bytes_mul b n)) = Z.of_nat (List.length b) * n.
Proof.
  intros b n Hn. unfold bytes_mul.
  rewrite <- (Z2Nat.id n Hn) at 2.
  induction (Z.to_nat n) as [|k IH]; simpl; [lia|].
  rewrite length_app, Nat2Z.inj_add, IH. lia.
Qed.

Lemma urandom_length : forall k w,
  0 <= k -> out_length (urandom (PInt k)) w = Some k.
Proof.
  intros k w Hk. unfold out_length, urandom.
  destruct (k <? 0) eqn:E; [lia|]. simpl.
  rewrite length_map, length_seq. f_equal. lia.
Qed.

Lemma cycle_pattern_length : forall t i n w,
  0 <= n -> t <> [] -> nth 0 t [] <> [] ->
  out_length (cycle_pattern t i n) w =
  Some (Z.of_nat (List.length (nth (Z.to_nat (i mod Z.of_nat (List.length t))) t []))
        * (n / Z.of_nat (List.length (nth 0 t [])) + 1)).
Proof.
  intros t i n w HS Ht H0. unfold out_length, cycle_pattern.
  destruct (Z.of_nat (List.length t) =? 0) eqn:E1.
  { destruct t; [congruence|]. simpl in E1. lia. }
  destruct (Z.of_nat (List.length (nth 0 t [])) =? 0) eqn:E2.
  { destruct (nth 0 t []); [congruence|]. simpl in E2. lia. }
  simpl. rewrite bytes_mul_length; [reflexivity|].
  assert (0 <= n / Z.of_nat (List.length (nth 0 t []))) by (apply Z.div_pos; lia). lia.
Qed.

(** C4 (as corrected): the buffer [get_overwrite_pattern] returns for pass
    [i] and length [n] has length [n] only for Random, for a missing
    selection and for a one-byte FixedByte; a FixedByte [b] gives
    [len(b) * n] bytes, and a Sequence or the Gutmann table gives
    [len(block) * (n div len(first block) + 1)] bytes, where [block] is
    the entry selected by [i mod n]. *)
Theorem get_overwrite_pattern_length : forall a i n w,
  0 <= n ->
  (forall nm, selected_pattern a = Some (nm, PStr "random") ->
     out_length (get_overwrite_pattern a i n) w = Some n) /\
  (selected_pattern a = None ->
     out_length (get_overwrite_pattern a i n) w = Some n) /\
  (forall nm b, selected_pattern a = Some (nm, PBytes b) ->
     out_length (get_overwrite_pattern a i n) w = Some (Z.of_nat (List.length b) * n)) /\
  (forall nm l, selected_pattern a = Some (nm, PList l) -> l <> [] -> nth 0 l [] <> [] ->
     out_length (get_overwrite_pattern a i n) w =
     Some (Z.of_nat (List.length (nth (Z.to_nat (i mod Z.of_nat (List.length l))) l []))
           * (n / Z.of_nat (List.length (nth 0 l [])) + 1))) /\
  (forall nm, selected_pattern a = Some (nm, PStr "gutmann") ->
     gutmann_patterns a <> [] -> nth 0 (gutmann_patterns a) [] <> [] ->
     out_length (get_overwrite_pattern a i n) w =
     Some (Z.of_nat (List.length (nth (Z.to_nat (i mod Z.of_nat (List.length (gutmann_patterns a))))
                                      (gutmann_patterns a) []))
           * (n / Z.of_nat (List.length (nth 0 (gutmann_patterns a) [])) + 1))).
Proof.
  intros a i n w HS.
  unfold get_overwrite_pattern.
  repeat split.
  - intros nm E. rewrite E. simpl. apply urandom_length; lia.
  - intros E. rewrite E. unfold out_length, bind. simpl. f_equal.
    rewrite bytes_mul_length by lia. simpl. destruct n; reflexivity.
  - intros nm b E. rewrite E. unfold out_length. simpl.
    rewrite bytes_mul_length by lia. reflexivity.
  - intros nm l E Hl H0. rewrite E. apply cycle_pattern_length; assumption.
  - intros nm E Hl H0. rewrite E. simpl. apply cycle_pattern_length; assumption.
Qed.

Lemma get_overwrite_pattern_length_witness :
  out_length (get_overwrite_pattern (cli_app 2 []) 0 3) demo_world = Some 4.
Proof.
  destruct (get_overwrite_pattern_length (cli_app 2 []) 0 3 demo_world ltac:(lia))
    as (_ & _ & _ & H & _).
  rewrite (H "DoD 5220.22-M" [[85]; [170]; [146; 73; 36; 146]]);
    [reflexivity | reflexivity | discriminate | discriminate].
Defined.

(** C4 as stated fails: with the default "DoD 5220.22-M" selection, pass 0
    and a requested length of 3, the generator returns 4 bytes. *)
Lemma get_overwrite_pattern_not_exact :
  out_length (get_overwrite_pattern (cli_app 2 []) 0 3) demo_world <> Some 3.
Proof. vm_compute. discriminate. Qed.

(** ** Path guard *)

(** C3: a path whose absolute normalized form starts with (the absolute
    form of) an entry of the user-directory allowlist is not protected,
    whatever the protected-directory set contains: the allowlist is
    checked first. *)
Theorem allowlist_overrides_protected : forall a path u,
  In u (user_dirs (home a)) ->
  String.prefix (abspath (cwd a) u) (abspath (cwd a) path) = true ->
  is_protected_location a path = false.
Proof.
  intros a path u Hin Hpre. unfold is_protected_location.
  replace (existsb _ (user_dirs (home a))) with true; [reflexivity|].
  symmetry. apply existsb_exists. exists u. split; assumption.
Qed.

Lemma allowlist_overrides_protected_witness :
  is_protected_location
    (mkapp DEFAULT_CHUNK_SIZE 4 DEFAULT_PATTERNS "DoD 5220.22-M" []
           ["/etc"; "/home/alice/Documents/etc"] "/home/alice" "/" [])
    "/home/alice/Documents/etc/secret.txt" = false.
Proof.
  apply (allowlist_overrides_protected _ _ "/home/alice/Documents");
    [simpl; tauto | vm_compute; reflexivity].
Defined.

(** ** Lock probe *)

(** [is_file_locked] never raises and changes nothing: it reports [True]
    exactly when the file opens read-write and the lock call raises an
    OSError, whatever the errno. *)
Lemma is_file_locked_spec : forall p w,
  is_file_locked p w =
  (Ok (match lookup p (fs w) with
       | Some (NFile f) =>
           fwritable f && match flock f with Unlocked => false | _ => true end
       | _ => false
       end), w).
Proof.
  intros p w. unfold is_file_locked, try_except, with_file, bind, open_rw.
  destruct (lookup p (fs w)) as [[f|]|] eqn:E; try reflexivity.
  destruct (fwritable f); [|reflexivity].
  unfold try_except, bind, lock_ex_nb, unlock, close, ret. simpl. rewrite E.
  destruct (flock f); reflexivity.
Qed.

(** C10 (as corrected): if the file cannot be opened read-write (missing,
    a directory, or not writable), [is_file_locked] returns [False]; once
    it is open, the result is [True] exactly when the lock call raises,
    whether another process holds the lock or the lock call fails for
    another reason (ENOLCK). *)
Theorem lock_probe_fails_open : forall p w,
  (match lookup p (fs w) with
   | Some (NFile f) => fwritable f = false
   | _ => True
   end ->
   is_file_locked p w = (Ok false, w)) /\
  (forall f, lookup p (fs w) = Some (NFile f) -> fwritable f = true ->
   is_file_locked p w = (Ok (match flock f with Unlocked => false | _ => true end), w)).
Proof.
  intros p w. rewrite is_file_locked_spec. split.
  - destruct (lookup p (fs w)) as [[f|]|]; intro H; try reflexivity. rewrite H. reflexivity.
  - intros f E Hw. rewrite E, Hw. reflexivity.
Qed.

(** C10 as stated fails: a probe whose lock call fails with ENOLCK (not
    because another process holds the lock) reports the file as locked. *)
Lemma lock_probe_enolck_reports_locked :
  is_file_locked "/mnt/nfs/x"
    (mkworld [("/mnt/nfs/x", NFile (mkfile [1] true LockUnsupported 0))]
             (fun i => i) 0 (Some 100) true [] [])
  = (Ok true, mkworld [("/mnt/nfs/x", NFile (mkfile [1] true LockUnsupported 0))]
                      (fun i => i) 0 (Some 100) true [] []).
Proof. vm_compute. reflexivity. Qed.

(** ** Verification *)

(** C1: [verify_shred] returns [True] in every state, in particular when
    the path still exists, so the verification step of [shred_file] never
    reports a failure. *)
Theorem verification_step_always_passes : forall p w,
  verify_shred p w = (Ok true, w) /\ verification_step p true w = (Ok tt, w).
Proof.
  intros p w.
  assert (H : verify_shred p w = (Ok true, w)).
  { unfold verify_shred, try_except, bind, os_path_exists, os_path_getsize, ret.
    destruct (lookup p (fs w)) as [[f|]|] eqn:E; simpl; rewrite ?E; reflexivity. }
  split; [exact H|].
  unfold verification_step, bind. rewrite H. reflexivity.
Qed.

Lemma lock_probe_fails_open_witness :
  is_file_locked "/home/alice" (set_fs demo_world [("/home/alice", NDir)])
  = (Ok false, set_fs demo_world [("/home/alice", NDir)]).
Proof. apply (proj1 (lock_probe_fails_open _ _)). simpl. exact I. Defined.

(** ** Locked files *)


(** ** Batch scheduler *)

(** A [try] whose handler only logs and returns never raises. *)
Lemma try_except_log_total {A} : forall (m : M A) (f : exc -> logev) (d : A) w,
  exists a w', try_except m (fun e => log_ (f e);;; ret d) w = (Ok a, w').
Proof.
  intros m f d w. unfold try_except.
  destruct (m w) as [[a|e] w']; [eauto|].
  do 2 eexists. reflexivity.
Qed.

(** [shred_file] never raises past its boundary. *)
Lemma shred_file_total : forall a p passes verify destroy_md w,
  exists ok w', shred_file a p passes verify destroy_md w = (Ok ok, w').
Proof.
  intros. unfold shred_file. apply (try_except_log_total _ LFailed).
Qed.

Lemma for_each_collect {X} : forall (l : list X) (g : X -> string)
  (body : X -> list (string * bool) -> M (list (string * bool))),
  (forall x acc w, In x l -> exists b w', body x acc w = (Ok (acc ++ [(g x, b)]), w')) ->
  forall acc w, exists outs w',
    for_each l body acc w = (Ok (acc ++ outs), w') /\ map fst outs = map g l.
Proof.
  induction l as [|x l IH]; intros g body Hb acc w.
  - exists [], w. rewrite app_nil_r. split; reflexivity.
  - destruct (Hb x acc w (or_introl eq_refl)) as (b & w1 & E1).
    destruct (IH g body (fun y acc' w' Hy => Hb y acc' w' (or_intror Hy)) (acc ++ [(g x, b)]) w1)
      as (outs & w2 & E2 & Hm).
    exists ((g x, b) :: outs), w2. simpl. unfold bind. rewrite E1, E2.
    rewrite <- app_assoc. simpl. split; [reflexivity|]. rewrite Hm. reflexivity.
Qed.

Lemma map_nth_seq_id : forall (l : list string) d,
  map (fun i => nth i l d) (seq 0 (List.length l)) = l.
Proof.
  induction l as [|x l IH]; intro d; [reflexivity|].
  simpl. f_equal. rewrite <- seq_shift, map_map. apply IH.
Qed.

Lemma map_snd_combine {X Y} : forall (l1 : list X) (l2 : list Y),
  List.length l1 = List.length l2 -> map snd (combine l1 l2) = l2.
Proof.
  induction l1 as [|x l1 IH]; intros [|y l2] H; simpl in *; try discriminate; try reflexivity.
  f_equal. apply IH. lia.
Qed.

Lemma zrange_length : forall a b, List.length (zrange a b) = Z.to_nat (b - a).
Proof. intros. unfold zrange. rewrite length_map, length_seq. reflexivity. Qed.

Lemma count_success_failed : forall outs,
  count_success outs + count_failed outs = Z.of_nat (List.length outs).
Proof.
  intro outs. unfold count_success, count_failed.
  assert (H : forall c d, fold_left (fun (c : Z) (o : string * bool) => if snd o then c + 1 else c) outs c
                        + fold_left (fun (c : Z) (o : string * bool) => if snd o then c else c + 1) outs d
                        = c + d + Z.of_nat (List.length outs)).
  { induction outs as [|[p b] outs IH]; intros c d; simpl; [lia|].
    rewrite IH. destruct b; lia. }
  rewrite H. reflexivity.
Qed.

(** C6: for a batch of K files, any worker count W >= 1 and any completion
    order of the futures (a permutation of the K submissions), the batch
    never raises, each submitted file yields exactly one outcome, and the
    successes and failures of the summary add up to K. *)
Theorem batch_accounts_every_file : forall a passes verify destroy_md order w,
  1 <= max_workers a ->
  Permutation order (seq 0 (List.length (files_to_shred a))) ->
  exists outs w',
    batch_outcomes a passes verify destroy_md order w = (Ok outs, w') /\
    Permutation (map fst outs) (files_to_shred a) /\
    count_success outs + count_failed outs = Z.of_nat (List.length (files_to_shred a)) /\
    fst (shred_files_threaded a passes verify destroy_md order w)
      = Ok (count_success outs, Z.of_nat (List.length (files_to_shred a))).
Proof.
  intros a passes verify destroy_md order w _ Hperm.
  set (files := files_to_shred a) in *.
  assert (Hb : exists outs w',
            batch_outcomes a passes verify destroy_md order w = (Ok outs, w') /\
            Permutation (map fst outs) files).
  { unfold batch_outcomes. fold files.
    destruct ((1 <? max_workers a) && (1 <? Z.of_nat (List.length files))).
    - unfold bind at 1. simpl.
      set (body := fun i (acc : list (string * bool)) =>
                     match nth_error files i with
                     | Some file =>
                         r <- submit (shred_file a file passes verify destroy_md);;
                         ok <- future_result r;;
                         ret (acc ++ [(file, ok)])
                     | None => ret acc
                     end).
      assert (Hstep : forall i acc w0, In i order ->
                exists ok w1, body i acc w0 = (Ok (acc ++ [(nth i files "", ok)]), w1)).
      { intros i acc w0 Hi.
        assert (Hlt : (i < List.length files)%nat).
        { apply (Permutation_in _ Hperm), in_seq in Hi. lia. }
        unfold body. rewrite (nth_error_nth' files "" Hlt).
        destruct (shred_file_total a (nth i files "") passes verify destroy_md w0) as (ok & w1 & E1).
        exists ok, w1. unfold bind, submit. rewrite E1. reflexivity. }
      destruct (for_each_collect order (fun i => nth i files "") body Hstep []
                  (add_log w (LWorkers (max_workers a)))) as (outs & w' & E & Hm).
      exists outs, w'. split; [exact E|].
      rewrite Hm.
      apply (Permutation_trans (l' := map (fun i => nth i files "") (seq 0 (List.length files)))).
      + apply Permutation_map. exact Hperm.
      + rewrite map_nth_seq_id. reflexivity.
    - set (body := fun (ifile : Z * string) (acc : list (string * bool)) =>
                     log_ (LShredding (fst ifile) (Z.of_nat (List.length files)) (snd ifile));;;
                     ok <- shred_file a (snd ifile) passes verify destroy_md;;
                     ret (acc ++ [(snd ifile, ok)])).
      assert (Hstep : forall x acc w0, In x (combine (zrange 1 (Z.of_nat (List.length files) + 1)) files) ->
                exists ok w1, body x acc w0 = (Ok (acc ++ [(snd x, ok)]), w1)).
      { intros x acc w0 _.
        destruct (shred_file_total a (snd x) passes verify destroy_md
                    (add_log w0 (LShredding (fst x) (Z.of_nat (List.length files)) (snd x))))
          as (ok & w1 & E1).
        exists ok, w1. unfold body, bind at 1. simpl. unfold bind. rewrite E1. reflexivity. }
      destruct (for_each_collect _ snd body Hstep [] w) as (outs & w' & E & Hm).
      exists outs, w'. split; [exact E|].
      rewrite Hm, map_snd_combine; [reflexivity|].
      rewrite zrange_length. lia. }
  destruct Hb as (outs & w' & E & Hp).
  exists outs, w'. split; [exact E|]. split; [exact Hp|].
  assert (Hc : count_success outs + count_failed outs = Z.of_nat (List.length files)).
  { rewrite count_success_failed, <- (length_map fst outs).
    rewrite (Permutation_length Hp). reflexivity. }
  split; [exact Hc|].
  unfold shred_files_threaded, bind. fold files. rewrite E. reflexivity.
Qed.

Lemma batch_accounts_every_file_witness :
  exists outs w',
    batch_outcomes (cli_app 2 ["/home/alice/a.txt"; "/home/alice/b.txt"; "/nonexist"])
                   3 true true [2; 0; 1]%nat demo_world = (Ok outs, w') /\
    Permutation (map fst outs) ["/home/alice/a.txt"; "/home/alice/b.txt"; "/nonexist"] /\
    count_success outs + count_failed outs = 3 /\
    fst (shred_files_threaded (cli_app 2 ["/home/alice/a.txt"; "/home/alice/b.txt"; "/nonexist"])
                              3 true true [2; 0; 1]%nat demo_world) = Ok (count_success outs, 3).
Proof.
  apply (batch_accounts_every_file
           (cli_app 2 ["/home/alice/a.txt"; "/home/alice/b.txt"; "/nonexist"])
           3 true true [2; 0; 1]%nat demo_world).
  - vm_compute. discriminate.
  - simpl. apply (perm_trans (perm_swap 0 2 [1])%nat). apply perm_skip. apply perm_swap.
Defined.

(** ** Chunked overwrite *)

Lemma lookup_fs_set : forall p n d, lookup p (fs_set p n d) = Some n.
Proof. intros. unfold fs_set. simpl. rewrite String.eqb_refl. reflexivity. Qed.

(** A write to an existing file on a device that accepts it records one
    write call and leaves the file, overwritten, in place. *)
Lemma write_ok : forall h c w f,
  lookup (hpath h) (fs w) = Some (NFile f) -> write_err w = None ->
  exists w',
    write h c w = (Ok (mkhandle (hpath h) (hpos h + Z.of_nat (List.length c))), w') /\
    wlog w' = wlog w ++ [(hpath h, hpos h, Z.of_nat (List.length c))] /\
    lookup (hpath h) (fs w') =
      Some (NFile (File (overwrite_at (fdata f) (hpos h) c) (fwritable f) (flock f) (fmtime f) (fowned f))) /\
    write_err w' = None.
Proof.
  intros h c w f E N. unfold write. rewrite E, N.
  eexists. split; [reflexivity|]. split; [reflexivity|].
  split; [apply lookup_fs_set|exact N].
Qed.

Lemma length_slice : forall b i j, 0 <= i <= j ->
  Z.of_nat (List.length (slice b i j)) = Z.min (j - i) (Z.max 0 (Z.of_nat (List.length b) - i)).
Proof. intros b i j H. unfold slice. rewrite length_firstn, length_skipn. lia. Qed.

(** The chunk loop from chunk [j] on, the file position being the end of
    the first [j] chunks of the pattern. *)
Lemma write_chunks_exact : forall pattern C n j h w f,
  0 < C -> (1 < List.length pattern)%nat ->
  lookup (hpath h) (fs w) = Some (NFile f) -> write_err w = None ->
  hpos h = Z.min (C * Z.of_nat j) (Z.of_nat (List.length pattern)) ->
  exists h' w',
    write_chunks pattern C (map (fun k => 0 + C * Z.of_nat k) (seq j n)) h w = (Ok h', w') /\
    wlog w' = wlog w ++ map (fun k => let pos := C * Z.of_nat k in
                                      (hpath h, Z.min pos (Z.of_nat (List.length pattern)),
                                       Z.of_nat (List.length (slice pattern pos (pos + C)))))
                            (seq j n).
Proof.
  intros pattern C n j h w f HC HL. unfold write_chunks.
  replace (1 <? Z.of_nat (List.length pattern)) with true by lia.
  revert j h w f. induction n as [|n IH]; intros j h w f E N P.
  - exists h, w. rewrite app_nil_r. split; reflexivity.
  - cbn [seq map for_each]. unfold bind at 1.
    replace (0 + C * Z.of_nat j) with (C * Z.of_nat j) by lia.
    destruct (write_ok h (slice pattern (C * Z.of_nat j) (C * Z.of_nat j + C)) w f E N)
      as (w1 & W & L1 & F1 & N1).
    unfold bind at 1. rewrite W. unfold bind at 1, flush, ret at 1.
    set (h1 := mkhandle (hpath h) _).
    assert (P1 : hpos h1 = Z.min (C * Z.of_nat (S j)) (Z.of_nat (List.length pattern))).
    { unfold h1; cbn [hpos]. rewrite P, length_slice by lia. lia. }
    destruct (IH (S j) h1 w1 _ F1 N1 P1) as (h' & w' & R & Lw).
    exists h', w'. split; [exact R|].
    rewrite Lw, L1, <- app_assoc, P. reflexivity.
Qed.

(** C8: in the chunked branch ([S > 10 * C], [C > 0]) a pass makes
    [ceil(S / C)] write calls, the [k]-th writing [pattern[k*C:(k+1)*C]]:
    the chunks are bounded by the pattern buffer, not by the file size [S]
    as in the other branch ([pattern[:file_size]]).  So the last write is
    not [S mod C] bytes long: shredding a 25-byte file with chunk size 2
    under the default DoD pattern makes 13 writes, the last one 2 bytes
    long at offset 24, one byte past the end of the file. *)
Theorem pass_chunk_writes :
  (forall C pattern S h w f,
     0 < C -> C * 10 < S -> (1 < List.length pattern)%nat ->
     lookup (hpath h) (fs w) = Some (NFile f) -> write_err w = None ->
     wlog (snd (write_pattern C pattern S h w)) =
     wlog w ++ map (fun k => let pos := C * Z.of_nat k in
                             (hpath h, Z.min pos (Z.of_nat (List.length pattern)),
                              Z.of_nat (List.length (slice pattern pos (pos + C)))))
                   (seq 0 (Z.to_nat ((S + C - 1) / C)))) /\
  (let w' := snd (shred_file (cli_app 2 []) "/home/alice/big" 1 false false
                   (set_fs demo_world [("/home/alice/big", demo_file (repeat 0 25))])) in
   List.length (wlog w') = 13%nat /\ last (wlog w') ("", 0, 0) = ("/home/alice/big", 24, 2)).
Proof.
  split; [|vm_compute; split; reflexivity].
  intros C pattern S h w f HC Hbig HL E N.
  unfold write_pattern, bind at 1, seek, ret at 1.
  replace (C * 10 <? S) with true by lia.
  unfold bind at 1, py_range.
  replace (C =? 0) with false by lia. replace (0 <? C) with true by lia.
  unfold ret at 1, bind at 1.
  replace (S - 0 + C - 1) with (S + C - 1) by lia.
  destruct (write_chunks_exact pattern C (Z.to_nat ((S + C - 1) / C)) 0 (mkhandle (hpath h) 0) w f
              HC HL E N ltac:(cbn [hpos]; lia)) as (h' & w' & R & Lw).
  rewrite R. unfold bind, flush, fsync, ret. cbv beta iota.
  destruct (fsync_ok w'); exact Lw.
Qed.

Lemma pass_chunk_writes_witness :
  wlog (snd (write_pattern 2 (repeat 85 26) 25 (mkhandle "/home/alice/c.txt" 0) demo_world)) =
  wlog demo_world ++ map (fun k => let pos := 2 * Z.of_nat k in
                                   ("/home/alice/c.txt", Z.min pos (Z.of_nat (List.length (repeat 85 26))),
                                    Z.of_nat (List.length (slice (repeat 85 26) pos (pos + 2)))))
                         (seq 0 (Z.to_nat ((25 + 2 - 1) / 2))).
Proof.
  apply (proj1 pass_chunk_writes 2 (repeat 85 26) 25 (mkhandle "/home/alice/c.txt" 0) demo_world
           (mkfile [5; 6; 7; 8] true Unlocked 0)); try reflexivity; cbn; lia.
Defined.

(** Outside the chunked branch ([S <= 10 * C]) a pass is one write call,
    of [pattern[:S]] at offset 0, after which the file holds those bytes
    followed by whatever lay beyond them. *)
Theorem pass_single_write : forall C pattern S h w f,
  S <= C * 10 ->
  lookup (hpath h) (fs w) = Some (NFile f) -> write_err w = None ->
  wlog (snd (write_pattern C pattern S h w))
    = wlog w ++ [(hpath h, 0, Z.of_nat (List.length (slice pattern 0 S)))] /\
  lookup (hpath h) (fs (snd (write_pattern C pattern S h w)))
    = Some (NFile (File (overwrite_at (fdata f) 0 (slice pattern 0 S))
                        (fwritable f) (flock f) (fmtime f) (fowned f))).
Proof.
  intros C pattern S h w f Hs E N.
  destruct (write_ok (mkhandle (hpath h) 0) (slice pattern 0 S) w f E N) as (w1 & W & L1 & F1 & _).
  assert (R : exists r, write_pattern C pattern S h w = (r, w1)).
  { unfold write_pattern, bind, seek, ret.
    replace (C * 10 <? S) with false by lia. cbv beta iota. rewrite W. unfold flush, fsync, ret. cbv beta iota.
    destruct (fsync_ok w1); eexists; reflexivity. }
  destruct R as (r & R). rewrite R. split; assumption.
Qed.

Lemma pass_single_write_witness :
  wlog (snd (write_pattern 2 (repeat 85 26) 3 (mkhandle "/home/alice/c.txt" 0) demo_world))
    = wlog demo_world ++ [("/home/alice/c.txt", 0, Z.of_nat (List.length (slice (repeat 85 26) 0 3)))] /\
  lookup "/home/alice/c.txt" (fs (snd (write_pattern 2 (repeat 85 26) 3 (mkhandle "/home/alice/c.txt" 0) demo_world)))
    = Some (NFile (File (overwrite_at [5; 6; 7; 8] 0 (slice (repeat 85 26) 0 3)) true Unlocked 0 true)).
Proof.
  apply (pass_single_write 2 (repeat 85 26) 3 (mkhandle "/home/alice/c.txt" 0) demo_world
           (mkfile [5; 6; 7; 8] true Unlocked 0)); try reflexivity; cbn; lia.
Defined.

(** ** Free-space wiper *)

Lemma urandom_fs : forall n w, fs (snd (urandom n w)) = fs w.
Proof.
  intros [k|x] w; simpl; [|reflexivity].
  destruct (k <? 0); reflexivity.
Qed.

Lemma urandom_wlog : forall n w, wlog (snd (urandom n w)) = wlog w.
Proof.
  intros [k|x] w; simpl; [|reflexivity].
  destruct (k <? 0); reflexivity.
Qed.

Lemma fill_loop_keeps_file : forall a ws steps h w f,
  lookup (hpath h) (fs w) = Some (NFile f) ->
  exists f', lookup (hpath h) (fs (snd (for_each steps (fill_step a ws) h w))) = Some (NFile f').
Proof.
  intros a ws steps. induction steps as [|x steps IH]; intros h w f E.
  - exists f. exact E.
  - simpl. unfold bind at 1, fill_step, bind at 1.
    destruct (urandom (py_min_int (chunk_size a) (py_sub_fi ws (tell h))) w) as [[data|e] w1] eqn:U;
      pose proof (urandom_fs (py_min_int (chunk_size a) (py_sub_fi ws (tell h))) w) as Fs;
      rewrite U in Fs; simpl in Fs.
    + rewrite <- Fs in E.
      unfold bind at 1, write at 1. rewrite E.
      destruct (write_err w1) as [e|] eqn:N; [exists f; exact E|].
      unfold bind at 1, flush, ret at 1.
      destruct (IH (mkhandle (hpath h) (hpos h + Z.of_nat (List.length data)))
                   (add_wlog (set_fs w1 (fs_set (hpath h) (NFile (File (overwrite_at (fdata f) (hpos h) data)
                      (fwritable f) (flock f) (fmtime f) (fowned f))) (fs w1)))
                      (hpath h, hpos h, Z.of_nat (List.length data))) _
                   (lookup_fs_set _ _ _)) as (f2 & F2).
      exists f2. exact F2.
    + exists f. simpl. rewrite Fs. exact E.
Qed.

Lemma with_file_world : forall A f (body : M A) w,
  snd (with_file f body w) = snd (body w).
Proof.
  intros A f body w. unfold with_file, try_except, bind, close, ret, raise.
  destruct (body w) as [[r|e] w']; reflexivity.
Qed.

(** A fill on a fresh path in a directory that lets the process create
    entries leaves a file there, however it ends. *)
Lemma fill_temp_creates_file : forall a temp ws w,
  lookup temp (fs w) = None -> create_err (dirs w (dirname temp)) = None ->
  exists f, lookup temp (fs (snd (fill_temp a temp ws w))) = Some (NFile f).
Proof.
  intros a temp ws w E D.
  unfold fill_temp, bind at 1, open_wb. rewrite E, D.
  set (w1 := set_fs w (fs_set temp (NFile (mkfile [] true Unlocked 0)) (fs w))).
  assert (E1 : lookup (hpath (mkhandle temp 0)) (fs w1) = Some (NFile (mkfile [] true Unlocked 0)))
    by apply lookup_fs_set.
  set (body := steps <- py_range 0 (int_of_float ws) (chunk_size a);;
               for_each steps (fill_step a ws) (mkhandle temp 0)).
  assert (B : exists f, lookup temp (fs (snd (body w1))) = Some (NFile f)).
  { unfold body, bind, py_range.
    destruct (chunk_size a =? 0); [simpl; eauto|].
    destruct (0 <? chunk_size a); simpl;
      exact (fill_loop_keeps_file a ws _ (mkhandle temp 0) w1 _ E1). }
  rewrite <- (with_file_world _ (mkhandle temp 0) body w1) in B.
  unfold bind at 1.
  destruct (with_file (mkhandle temp 0) body w1) as [[r|e] w3]; exact B.
Qed.

(** Where the directory refuses a new entry, [open(temp, 'wb')] raises and
    the fill changes nothing. *)
Lemma fill_temp_open_fails : forall a temp ws w e,
  lookup temp (fs w) = None -> create_err (dirs w (dirname temp)) = Some e ->
  fill_temp a temp ws w = (Err (OSError e), w).
Proof.
  intros a temp ws w e E D. unfold fill_temp, bind at 1, open_wb. rewrite E, D. reflexivity.
Qed.

(** C2 (amended): the temporary file goes to [shred_file] only when the
    fill finishes without raising.  If the fill raises, the handler logs
    the failure and the wipe returns [False] without shredding anything;
    the temporary file is then left on disk whenever [open] could create
    it (its directory lets the process add entries), and is absent
    otherwise. *)
Theorem wipe_temp_file_fate : forall a dir w tf w1,
  wipe_prepare a dir w = (Ok tf, w1) ->
  lookup (fst tf) (fs w1) = None ->
  (forall e w2,
     fill_temp a (fst tf) (wipe_size_of (snd tf)) w1 = (Err e, w2) ->
     wipe_free_space a dir w = (Ok false, add_log w2 (LWipeFailed e)) /\
     (create_err (dirs w1 (dirname (fst tf))) = None ->
        exists f, lookup (fst tf) (fs w2) = Some (NFile f)) /\
     (create_err (dirs w1 (dirname (fst tf))) <> None ->
        lookup (fst tf) (fs w2) = None)) /\
  (forall u w2 ok w3,
     fill_temp a (fst tf) (wipe_size_of (snd tf)) w1 = (Ok u, w2) ->
     shred_file a (fst tf) 3 true true (add_log w2 LWipeShredTemp) = (Ok ok, w3) ->
     wipe_free_space a dir w = (Ok ok, add_log w3 (LWipeDone ok))).
Proof.
  intros a dir w tf w1 P N. split.
  - intros e w2 F. split; [|split].
    + unfold wipe_free_space, try_except, bind at 1. rewrite P.
      unfold wipe_run, bind at 1. rewrite F. reflexivity.
    + intro D.
      pose proof (fill_temp_creates_file a (fst tf) (wipe_size_of (snd tf)) w1 N D) as C.
      rewrite F in C. exact C.
    + intro D. destruct (create_err (dirs w1 (dirname (fst tf)))) as [e'|] eqn:D'; [|congruence].
      rewrite (fill_temp_open_fails a (fst tf) (wipe_size_of (snd tf)) w1 e' N D') in F.
      injection F as _ <-. exact N.
  - intros u w2 ok w3 F S.
    unfold wipe_free_space, try_except, bind at 1. rewrite P.
    unfold wipe_run, bind at 1. rewrite F.
    unfold bind at 1, log_ at 1. unfold bind at 1. rewrite S. reflexivity.
Qed.

Lemma wipe_temp_file_fate_witness :
  let a := cli_app DEFAULT_CHUNK_SIZE [] in
  let tf := ("/tmp/shredder_temp_3.tmp", 100) in
  let w1 := snd (wipe_prepare a (Some "/tmp") demo_world) in
  (wipe_prepare a (Some "/tmp") demo_world = (Ok tf, w1) /\
   lookup (fst tf) (fs w1) = None) /\
  ((forall e w2,
     fill_temp a (fst tf) (wipe_size_of (snd tf)) w1 = (Err e, w2) ->
     wipe_free_space a (Some "/tmp") demo_world = (Ok false, add_log w2 (LWipeFailed e)) /\
     (create_err (dirs w1 (dirname (fst tf))) = None ->
        exists f, lookup (fst tf) (fs w2) = Some (NFile f)) /\
     (create_err (dirs w1 (dirname (fst tf))) <> None ->
        lookup (fst tf) (fs w2) = None)) /\
   (forall u w2 ok w3,
     fill_temp a (fst tf) (wipe_size_of (snd tf)) w1 = (Ok u, w2) ->
     shred_file a (fst tf) 3 true true (add_log w2 LWipeShredTemp) = (Ok ok, w3) ->
     wipe_free_space a (Some "/tmp") demo_world = (Ok ok, add_log w3 (LWipeDone ok)))).
Proof.
  intros a tf w1.
  assert (P : wipe_prepare a (Some "/tmp") demo_world = (Ok tf, w1)) by reflexivity.
  assert (N : lookup (fst tf) (fs w1) = None) by reflexivity.
  split; [split; assumption|].
  exact (wipe_temp_file_fate a (Some "/tmp") demo_world tf w1 P N).
Defined.

(** C2 counterexample: the volume reports 100 free bytes, but by the time
    the fill writes, the space is gone and every write fails with ENOSPC.
    With 4-byte chunks the first request is the int 4, [os.urandom(4)]
    succeeds and the first [f.write] raises after [open] created the
    temporary file: the wipe logs the failure and returns [False], and the
    empty temporary file is left on disk. *)
Lemma wipe_leaves_temp_file :
  let r := wipe_free_space (cli_app 4 []) (Some "/tmp") full_volume_world in
  fst r = Ok false /\
  lookup "/tmp/shredder_temp_3.tmp" (fs (snd r)) = Some (demo_file []) /\
  log (snd r) = [LWipeStart "/tmp"; LWipeFree 100; LWipeFailed (OSError ENOSPC)].
Proof. vm_compute. split; [|split]; reflexivity. Qed.






Lemma py_range_neg_empty : forall n c w,
  c < 0 -> 0 <= n -> py_range 0 n c w = (Ok [], w).
Proof.
  intros n c w Hc Hn. unfold py_range.
  destruct (c =? 0) eqn:E0; [lia|]. destruct (0 <? c) eqn:E1; [lia|].
  replace (Z.to_nat ((0 - n - c - 1) / - c)) with 0%nat; [reflexivity|].
  assert ((0 - n - c - 1) / - c < 1).
  { apply Z.div_lt_upper_bound; lia. }
  lia.
Qed.













(** ** Frame lemmas *)

Section Frame.
Variable R : world -> world -> Prop.
Hypothesis R_refl : forall w, R w w.
Hypothesis R_trans : forall w1 w2 w3, R w1 w2 -> R w2 w3 -> R w1 w3.

Lemma ret_pres {A} : forall (a : A), preserves R (ret a).
Proof. intros a w. apply R_refl. Qed.

Lemma raise_pres {A} : forall e, preserves R (@raise A e).
Proof. intros e w. apply R_refl. Qed.

Lemma bind_pres {A B} : forall (m : M A) (k : A -> M B),
  preserves R m -> (forall a, preserves R (k a)) -> preserves R (bind m k).
Proof.
  intros m k Hm Hk w. unfold bind. specialize (Hm w).
  destruct (m w) as [[a|e] w1]; simpl in *; [|exact Hm].
  exact (R_trans _ _ _ Hm (Hk a w1)).
Qed.

Lemma try_except_pres {A} : forall (m : M A) h,
  preserves R m -> (forall e, preserves R (h e)) -> preserves R (try_except m h).
Proof.
  intros m h Hm Hh w. unfold try_except. specialize (Hm w).
  destruct (m w) as [[a|e] w1]; simpl in *; [exact Hm|].
  exact (R_trans _ _ _ Hm (Hh e w1)).
Qed.

Lemma for_each_pres {X S} : forall (l : list X) (body : X -> S -> M S),
  (forall x s, preserves R (body x s)) -> forall s, preserves R (for_each l body s).
Proof.
  induction l as [|x l IH]; intros body Hb s; simpl.
  - apply ret_pres.
  - apply bind_pres; [apply Hb|]. intro s'. apply IH. exact Hb.
Qed.

Lemma with_file_pres {A} : forall f (body : M A),
  preserves R body -> preserves R (with_file f body).
Proof.
  intros f body Hb. unfold with_file, close.
  apply try_except_pres.
  - apply bind_pres; [exact Hb|]. intro r. apply bind_pres; intros; apply ret_pres.
  - intro e. apply bind_pres; intros; [apply ret_pres|apply raise_pres].
Qed.
End Frame.

Lemma same_wlog_refl : forall w, same_wlog w w.
Proof. intro w. reflexivity. Qed.

Lemma same_wlog_trans : forall w1 w2 w3, same_wlog w1 w2 -> same_wlog w2 w3 -> same_wlog w1 w3.
Proof. unfold same_wlog. intros w1 w2 w3 H1 H2. congruence. Qed.

Lemma same_disk_refl : forall w, same_disk w w.
Proof. intro w. repeat split. Qed.

Lemma same_disk_trans : forall w1 w2 w3, same_disk w1 w2 -> same_disk w2 w3 -> same_disk w1 w3.
Proof. unfold same_disk. intros w1 w2 w3 (A1 & B1 & C1 & D1) (A2 & B2 & C2 & D2). repeat split; congruence. Qed.

(** Composing frame facts: [bind], [try_except], loops and the primitives. *)
Ltac frame R Rr Rt :=
  repeat (intros;
    match goal with
    | |- preserves R _ => solve [auto with frame]
    | |- preserves R (bind _ _) => apply (bind_pres R Rt)
    | |- preserves R (try_except _ _) => apply (try_except_pres R Rt)
    | |- preserves R (for_each _ _ _) => apply (for_each_pres R Rr Rt)
    | |- preserves R (with_file _ _) => apply (with_file_pres R Rr Rt)
    | |- preserves R (ret _) => apply (ret_pres R Rr)
    | |- preserves R (raise _) => apply (raise_pres R Rr)
    | |- preserves R (if ?b then _ else _) => destruct b
    | |- preserves R (match ?x with _ => _ end) => destruct x
    | _ => first [solve [auto with frame] | progress (cbv beta iota)]
    end).

Ltac prim R :=
  intro w; unfold R;
  cbv [os_path_exists os_path_getsize open_rw open_wb close lock_ex_nb unlock seek
       flush fsync os_remove os_utime os_rename randint urandom query_free_space
       py_range log_ ret raise bind];
  repeat match goal with
         | |- context [match ?x with _ => _ end] => destruct x eqn:?
         | |- context [if ?b then _ else _] => destruct b eqn:?
         end; simpl; repeat split; congruence.

Lemma os_path_exists_wlog : forall p, preserves same_wlog (os_path_exists p).
Proof. intro; prim same_wlog. Qed.
Lemma os_path_getsize_wlog : forall p, preserves same_wlog (os_path_getsize p).
Proof. intro; prim same_wlog. Qed.
Lemma open_rw_wlog : forall p, preserves same_wlog (open_rw p).
Proof. intro; prim same_wlog. Qed.
Lemma open_wb_wlog : forall p, preserves same_wlog (open_wb p).
Proof. intro; prim same_wlog. Qed.
Lemma lock_ex_nb_wlog : forall h, preserves same_wlog (lock_ex_nb h).
Proof. intro; prim same_wlog. Qed.
Lemma fsync_wlog : forall h, preserves same_wlog (fsync h).
Proof. intro; prim same_wlog. Qed.
Lemma os_remove_wlog : forall p, preserves same_wlog (os_remove p).
Proof. intro; prim same_wlog. Qed.
Lemma os_utime_wlog : forall p t, preserves same_wlog (os_utime p t).
Proof. intros; prim same_wlog. Qed.
Lemma os_rename_wlog : forall p q, preserves same_wlog (os_rename p q).
Proof. intros; prim same_wlog. Qed.
Lemma randint_wlog : forall a b, preserves same_wlog (randint a b).
Proof. intros; prim same_wlog. Qed.
Lemma urandom_wlog' : forall n, preserves same_wlog (urandom n).
Proof. intros; prim same_wlog. Qed.
Lemma py_range_wlog : forall a b c, preserves same_wlog (py_range a b c).
Proof. intros; prim same_wlog. Qed.
Lemma log_wlog : forall e, preserves same_wlog (log_ e).
Proof. intros; prim same_wlog. Qed.
Lemma close_wlog : forall h, preserves same_wlog (close h).
Proof. intros; prim same_wlog. Qed.
Lemma unlock_wlog : forall h, preserves same_wlog (unlock h).
Proof. intros; prim same_wlog. Qed.
Lemma seek_wlog : forall h p, preserves same_wlog (seek h p).
Proof. intros; prim same_wlog. Qed.
Lemma flush_wlog : forall h, preserves same_wlog (flush h).
Proof. intros; prim same_wlog. Qed.

Lemma os_path_exists_disk : forall p, preserves same_disk (os_path_exists p).
Proof. intro; prim same_disk. Qed.
Lemma os_path_getsize_disk : forall p, preserves same_disk (os_path_getsize p).
Proof. intro; prim same_disk. Qed.
Lemma open_rw_disk : forall p, preserves same_disk (open_rw p).
Proof. intro; prim same_disk. Qed.
Lemma lock_ex_nb_disk : forall h, preserves same_disk (lock_ex_nb h).
Proof. intro; prim same_disk. Qed.
Lemma fsync_disk : forall h, preserves same_disk (fsync h).
Proof. intro; prim same_disk. Qed.
Lemma randint_disk : forall a b, preserves same_disk (randint a b).
Proof. intros; prim same_disk. Qed.
Lemma urandom_disk : forall n, preserves same_disk (urandom n).
Proof. intros; prim same_disk. Qed.
Lemma py_range_disk : forall a b c, preserves same_disk (py_range a b c).
Proof. intros; prim same_disk. Qed.
Lemma log_disk : forall e, preserves same_disk (log_ e).
Proof. intros; prim same_disk. Qed.
Lemma query_free_space_disk : forall d, preserves same_disk (query_free_space d).
Proof. intros; prim same_disk. Qed.
Lemma close_disk : forall h, preserves same_disk (close h).
Proof. intros; prim same_disk. Qed.
Lemma unlock_disk : forall h, preserves same_disk (unlock h).
Proof. intros; prim same_disk. Qed.
Lemma seek_disk : forall h p, preserves same_disk (seek h p).
Proof. intros; prim same_disk. Qed.
Lemma flush_disk : forall h, preserves same_disk (flush h).
Proof. intros; prim same_disk. Qed.

Create HintDb frame.
#[export] Hint Resolve os_path_exists_wlog os_path_getsize_wlog open_rw_wlog open_wb_wlog
  lock_ex_nb_wlog fsync_wlog os_remove_wlog os_utime_wlog os_rename_wlog randint_wlog
  urandom_wlog' py_range_wlog log_wlog close_wlog unlock_wlog seek_wlog flush_wlog : frame.
#[export] Hint Resolve os_path_exists_disk os_path_getsize_disk open_rw_disk lock_ex_nb_disk
  fsync_disk randint_disk urandom_disk py_range_disk log_disk query_free_space_disk
  close_disk unlock_disk seek_disk flush_disk : frame.

Lemma is_file_locked_wlog : forall p, preserves same_wlog (is_file_locked p).
Proof. intro p. unfold is_file_locked. frame same_wlog same_wlog_refl same_wlog_trans. Qed.

Lemma is_file_locked_disk : forall p, preserves same_disk (is_file_locked p).
Proof. intro p. unfold is_file_locked. frame same_disk same_disk_refl same_disk_trans. Qed.

Lemma rename_attempts_wlog : forall k d t, preserves same_wlog (rename_attempts k d t).
Proof.
  induction k as [|k IH]; intros d t; simpl; frame same_wlog same_wlog_refl same_wlog_trans.
Qed.

#[export] Hint Resolve rename_attempts_wlog : frame.

Lemma destroy_metadata_wlog : forall p, preserves same_wlog (destroy_metadata p).
Proof.
  intro p. unfold destroy_metadata. frame same_wlog same_wlog_refl same_wlog_trans.
Qed.

Lemma verify_shred_disk : forall p, preserves same_disk (verify_shred p).
Proof. intro p. unfold verify_shred. frame same_disk same_disk_refl same_disk_trans. Qed.

#[export] Hint Resolve verify_shred_disk : frame.

Lemma verification_step_disk : forall p v, preserves same_disk (verification_step p v).
Proof.
  intros p v. unfold verification_step. frame same_disk same_disk_refl same_disk_trans.
Qed.

Lemma cycle_pattern_disk : forall t i n, preserves same_disk (cycle_pattern t i n).
Proof. intros. unfold cycle_pattern. frame same_disk same_disk_refl same_disk_trans. Qed.

#[export] Hint Resolve cycle_pattern_disk : frame.

Lemma get_overwrite_pattern_disk : forall a i n, preserves same_disk (get_overwrite_pattern a i n).
Proof.
  intros. unfold get_overwrite_pattern. frame same_disk same_disk_refl same_disk_trans.
Qed.

Lemma get_overwrite_pattern_wlog : forall a i n, preserves same_wlog (get_overwrite_pattern a i n).
Proof.
  intros a i n w. destruct (get_overwrite_pattern_disk a i n w) as (_ & H & _). exact H.
Qed.

(** [range(0, n, c)] is empty for a negative step and [n >= 0]. *)

(** With a negative chunk size a pass over a file of size [n >= 0] takes
    the chunked branch and writes nothing. *)
Lemma write_pattern_neg_chunk_wlog : forall C pattern n h,
  C < 0 -> 0 <= n -> preserves same_wlog (write_pattern C pattern n h).
Proof.
  intros C pattern n h HC Hn w. unfold write_pattern, bind at 1, seek, ret at 1.
  destruct (C * 10 <? n) eqn:B; [|lia].
  unfold bind at 1, bind at 1. rewrite py_range_neg_empty by lia.
  cbn [write_chunks for_each].
  revert w. change (preserves same_wlog
    (bind (ret (mkhandle (hpath h) 0)) (fun h0 => flush h0;;; fsync h0;;; ret h0))).
  frame same_wlog same_wlog_refl same_wlog_trans.
Qed.

Lemma disk_wlog {A} : forall (m : M A), preserves same_disk m -> preserves same_wlog m.
Proof. intros m H w. destruct (H w) as (_ & E & _). exact E. Qed.

#[export] Hint Resolve is_file_locked_wlog is_file_locked_disk destroy_metadata_wlog
  get_overwrite_pattern_wlog get_overwrite_pattern_disk verification_step_disk : frame.

Lemma verification_step_wlog : forall p v, preserves same_wlog (verification_step p v).
Proof. intros. apply disk_wlog. apply verification_step_disk. Qed.

#[export] Hint Resolve verification_step_wlog : frame.

(** [os.path.getsize] returns a size [>= 0]. *)
Lemma getsize_bind_pres {B} : forall (R : world -> world -> Prop) p (k : Z -> M B),
  (forall w, R w w) ->
  (forall n, 0 <= n -> preserves R (k n)) -> preserves R (bind (os_path_getsize p) k).
Proof.
  intros R p k Rr Hk w. unfold bind, os_path_getsize.
  destruct (lookup p (fs w)) as [[f|]|]; [apply Hk; lia|apply Hk; lia|apply Rr].
Qed.

(** [shred_file] makes no write call of its own outside the pass loop. *)
Lemma shred_file_wlog_if : forall a p passes v dm,
  (forall n h, 0 <= n -> preserves same_wlog (for_each (zrange 0 passes) (overwrite_pass a n) h)) ->
  preserves same_wlog (shred_file a p passes v dm).
Proof.
  intros a p passes v dm Hloop. unfold shred_file.
  apply (try_except_pres _ same_wlog_trans);
    [|frame same_wlog same_wlog_refl same_wlog_trans].
  apply (bind_pres _ same_wlog_trans); [auto with frame|intro ex].
  destruct (negb ex); [frame same_wlog same_wlog_refl same_wlog_trans|].
  apply (bind_pres _ same_wlog_trans); [auto with frame|intro locked].
  destruct locked; [frame same_wlog same_wlog_refl same_wlog_trans|].
  apply getsize_bind_pres; [exact same_wlog_refl|intros n Hn].
  frame same_wlog same_wlog_refl same_wlog_trans.
Qed.

Lemma lookup_fs_delete_same : forall p d, lookup p (fs_delete p d) = None.
Proof.
  intros p d. induction d as [|[q n] d IH]; simpl; [reflexivity|].
  destruct (String.eqb p q) eqn:E; [exact IH|]. simpl. rewrite E. exact IH.
Qed.

Lemma lookup_fs_delete_other : forall p q d, p <> q -> lookup p (fs_delete q d) = lookup p d.
Proof.
  intros p q d Hne. induction d as [|[r n] d IH]; simpl; [reflexivity|].
  destruct (String.eqb q r) eqn:E.
  - apply String.eqb_eq in E. subst r.
    destruct (String.eqb p q) eqn:E2; [apply String.eqb_eq in E2; congruence|exact IH].
  - simpl. rewrite IH. reflexivity.
Qed.

Lemma lookup_fs_set_other : forall p q n d, p <> q -> lookup p (fs_set q n d) = lookup p d.
Proof.
  intros p q n d Hne. unfold fs_set. simpl.
  destruct (String.eqb p q) eqn:E; [apply String.eqb_eq in E; congruence|].
  apply lookup_fs_delete_other. exact Hne.
Qed.

Lemma verify_shred_ok : forall p w, verify_shred p w = (Ok true, w).
Proof.
  intros p w. unfold verify_shred, try_except, bind, os_path_exists, os_path_getsize, ret.
  destruct (lookup p (fs w)) as [[f|]|] eqn:E; simpl; rewrite ?E; reflexivity.
Qed.

Lemma verification_step_ok : forall p v w, verification_step p v w = (Ok tt, w).
Proof.
  intros p v w. unfold verification_step. destruct v; [|reflexivity].
  unfold bind. rewrite verify_shred_ok. reflexivity.
Qed.

(** With a negative chunk size the pass loop runs to its end without
    touching the disk, as long as the patterns are computed and fsync works. *)
Lemma neg_chunk_passes_ok : forall a n steps h w,
  chunk_size a < 0 -> 0 <= n -> fsync_ok w = true ->
  (forall i m w0, exists b w1, get_overwrite_pattern a i m w0 = (Ok b, w1)) ->
  exists h' w', for_each steps (overwrite_pass a n) h w = (Ok h', w') /\ same_disk w w'.
Proof.
  intros a n steps. induction steps as [|i steps IH]; intros h w HC Hn Hf Hpat.
  - exists h, w. split; [reflexivity|apply same_disk_refl].
  - cbn [for_each]. set (rest := for_each steps (overwrite_pass a n)).
    unfold bind at 1, overwrite_pass, bind at 1.
    destruct (Hpat i n w) as (b & w1 & P).
    pose proof (get_overwrite_pattern_disk a i n w) as D1. rewrite P in D1. simpl in D1.
    rewrite P. unfold write_pattern, bind at 1, seek, ret at 1.
    destruct (chunk_size a * 10 <? n) eqn:B; [|lia].
    unfold bind at 1, bind at 1. rewrite py_range_neg_empty by lia.
    cbn [write_chunks for_each ret]. unfold bind at 1, flush, ret at 1.
    unfold bind at 1, fsync.
    destruct D1 as (F1 & W1 & S1 & R1). rewrite S1, Hf.
    unfold ret at 1.
    destruct (IH (mkhandle (hpath h) 0) w1 HC Hn ltac:(congruence) Hpat) as (h' & w' & E & D).
    exists h', w'. split; [exact E|].
    exact (same_disk_trans w w1 w' (conj F1 (conj W1 (conj S1 R1))) D).
Qed.

(** * Further properties of the code *)

(** ** Shred executor: passes and chunk size *)

(** [shred_file] makes no write call at all when [passes <= 0] (the pass
    loop [range(passes)] is empty) or when the configured [chunk_size] is
    negative (every pass takes the chunked branch, whose [range(0,
    file_size, chunk_size)] is empty), whatever the file and the flags. *)
Theorem shred_file_no_overwrite : forall a p passes verify destroy_md w,
  passes <= 0 \/ chunk_size a < 0 ->
  wlog (snd (shred_file a p passes verify destroy_md w)) = wlog w.
Proof.
  intros a p passes verify destroy_md w H.
  apply (shred_file_wlog_if a p passes verify destroy_md). intros n h Hn.
  destruct H as [Hp|Hc].
  - replace (zrange 0 passes) with (@nil Z); [apply (ret_pres _ same_wlog_refl)|].
    unfold zrange. replace (Z.to_nat (passes - 0)) with 0%nat by lia. reflexivity.
  - apply (for_each_pres _ same_wlog_refl same_wlog_trans). intros i h'.
    unfold overwrite_pass. apply (bind_pres _ same_wlog_trans); [auto with frame|].
    intro pattern. apply write_pattern_neg_chunk_wlog; assumption.
Qed.

Lemma shred_file_no_overwrite_witness :
  (3 <= 0 \/ chunk_size (cli_app (-1) []) < 0) /\
  wlog (snd (shred_file (cli_app (-1) []) "/home/alice/a.txt" 3 true true demo_world))
    = wlog demo_world.
Proof.
  split; [right; reflexivity|].
  apply shred_file_no_overwrite. right. reflexivity.
Defined.

(** With a negative [chunk_size], shredding an unlocked regular file this
    process may write, in a directory that lets it remove the file
    (without metadata destruction, with a working fsync and a pattern that
    can be computed), deletes the file and reports success, although not
    one byte of it was overwritten. *)
Theorem shred_negative_chunk_deletes_unwritten : forall a p passes verify w f,
  chunk_size a < 0 ->
  lookup p (fs w) = Some (NFile f) -> fwritable f = true -> flock f = Unlocked ->
  remove_err (dirs w (dirname p)) (fowned f) = None ->
  fsync_ok w = true ->
  (forall i m w0, exists b w1, get_overwrite_pattern a i m w0 = (Ok b, w1)) ->
  exists w', shred_file a p passes verify false w = (Ok true, w') /\
             wlog w' = wlog w /\ lookup p (fs w') = None.
Proof.
  intros a p passes verify w f HC E Hw Hl HR Hf Hpat.
  set (n := Z.of_nat (List.length (fdata f))).
  destruct (neg_chunk_passes_ok a n (zrange 0 passes) (mkhandle p 0) w HC
              ltac:(unfold n; lia) Hf Hpat) as (h' & w1 & L & F1 & W1 & S1 & R1).
  unfold shred_file, try_except, bind at 1, os_path_exists. rewrite E. cbv beta iota.
  unfold negb, bind at 1. rewrite is_file_locked_spec, E, Hw, Hl. cbv beta iota.
  unfold andb, bind at 1, os_path_getsize. rewrite E. cbv beta iota.
  unfold bind at 1, ret at 1. cbv beta iota.
  unfold bind at 1, open_rw. rewrite E, Hw. cbv beta iota.
  unfold bind at 1, with_file, try_except, bind at 1. fold n. rewrite L.
  unfold close, ret, bind at 1. cbv beta iota.
  unfold bind at 1, os_remove. rewrite F1, E, R1, HR. cbv beta iota.
  unfold bind at 1. rewrite verification_step_ok.
  unfold bind at 1, log_. cbv beta iota.
  eexists. split; [reflexivity|]. simpl. split; [exact W1|].
  apply lookup_fs_delete_same.
Qed.

Lemma shred_negative_chunk_deletes_unwritten_witness :
  exists w', shred_file (cli_app (-1) []) "/home/alice/a.txt" 3 true false demo_world = (Ok true, w') /\
             wlog w' = wlog demo_world /\ lookup "/home/alice/a.txt" (fs w') = None.
Proof.
  apply (shred_negative_chunk_deletes_unwritten (cli_app (-1) []) "/home/alice/a.txt" 3 true
           demo_world (mkfile [1; 2; 3] true Unlocked 0)); try reflexivity.
  intros i m w0. do 2 eexists. reflexivity.
Defined.

Lemma zrange_0_cons : forall b, 0 < b -> exists rest, zrange 0 b = 0 :: rest.
Proof.
  intros b Hb. unfold zrange.
  destruct (Z.to_nat (b - 0)) as [|k] eqn:K; [lia|].
  eexists. reflexivity.
Qed.

(** With [chunk_size = 0], shredding a non-empty unlocked regular file
    this process may write (without metadata destruction) fails: the first
    pass calls [range(0, file_size, 0)], whose ValueError is caught and
    logged.  The file stays in place, unchanged, and no write call is made. *)
Theorem shred_zero_chunk_fails_keeps_file : forall a p passes verify w f,
  chunk_size a = 0 -> 0 < passes ->
  lookup p (fs w) = Some (NFile f) -> fdata f <> [] ->
  fwritable f = true -> flock f = Unlocked ->
  (forall i m w0, exists b w1, get_overwrite_pattern a i m w0 = (Ok b, w1)) ->
  exists w', shred_file a p passes verify false w = (Ok false, w') /\
             fs w' = fs w /\ wlog w' = wlog w /\ In (LFailed ValueError) (log w').
Proof.
  intros a p passes verify w f HC Hp E Hne Hw Hl Hpat.
  set (n := Z.of_nat (List.length (fdata f))).
  assert (Hn : 0 < n) by (unfold n; destruct (fdata f); [congruence|simpl; lia]).
  destruct (zrange_0_cons passes Hp) as (rest & Z0).
  destruct (Hpat 0 n w) as (b & w1 & P).
  pose proof (get_overwrite_pattern_disk a 0 n w) as D1. rewrite P in D1.
  destruct D1 as (F1 & W1 & _). cbn [snd] in F1, W1.
  unfold shred_file, try_except, bind at 1, os_path_exists. rewrite E. cbv beta iota.
  unfold negb, bind at 1. rewrite is_file_locked_spec, E, Hw, Hl. cbv beta iota.
  unfold andb, bind at 1, os_path_getsize. rewrite E. cbv beta iota.
  unfold bind at 1, ret at 1. cbv beta iota.
  unfold bind at 1, open_rw. rewrite E, Hw. cbv beta iota.
  unfold bind at 1, with_file, try_except, bind at 1. fold n. rewrite Z0.
  cbn [for_each]. unfold bind at 1, overwrite_pass at 1, bind at 1.
  replace (0 + Z.of_nat 0) with 0 by reflexivity. rewrite P.
  unfold write_pattern, bind at 1, seek, ret at 1. rewrite HC.
  replace (0 * 10 <? n) with true by lia.
  unfold bind at 1, bind at 1, py_range. rewrite Z.eqb_refl.
  unfold raise, close, ret, bind, log_. cbv beta iota.
  eexists. split; [reflexivity|]. simpl.
  split; [exact F1|]. split; [exact W1|]. apply in_or_app. right. left. reflexivity.
Qed.

Lemma shred_zero_chunk_fails_keeps_file_witness :
  exists w', shred_file (cli_app 0 []) "/home/alice/a.txt" 3 true false demo_world = (Ok false, w') /\
             fs w' = fs demo_world /\ wlog w' = wlog demo_world /\ In (LFailed ValueError) (log w').
Proof.
  apply (shred_zero_chunk_fails_keeps_file (cli_app 0 []) "/home/alice/a.txt" 3 true
           demo_world (mkfile [1; 2; 3] true Unlocked 0)); try reflexivity; try discriminate.
  intros i m w0. do 2 eexists. reflexivity.
Defined.

(** ** Shred executor: what a successful shred leaves behind *)

Lemma same_except_refl : forall q w, same_except q w w.
Proof. intros q w r _. reflexivity. Qed.

Lemma same_except_trans : forall q w1 w2 w3,
  same_except q w1 w2 -> same_except q w2 w3 -> same_except q w1 w3.
Proof. intros q w1 w2 w3 H1 H2 r Hr. rewrite (H2 r Hr). apply H1. exact Hr. Qed.

Lemma disk_except {A} : forall q (m : M A), preserves same_disk m -> preserves (same_except q) m.
Proof. intros q m H w r _. destruct (H w) as (F & _). rewrite F. reflexivity. Qed.

Lemma stays_bind_pre {A} : forall q (m : M A) (k : A -> M handle),
  preserves (same_except q) m -> (forall a, stays q (k a)) -> stays q (bind m k).
Proof.
  intros q m k Hm Hk w. unfold bind. specialize (Hm w).
  destruct (m w) as [[a|e] w1]; simpl in *.
  - destruct (Hk a w1) as (H1 & H2). split; [exact (same_except_trans q _ _ _ Hm H1)|exact H2].
  - split; [exact Hm|intros; discriminate].
Qed.

Lemma stays_bind_h : forall q (m : M handle) (k : handle -> M handle),
  stays q m -> (forall h, hpath h = q -> stays q (k h)) -> stays q (bind m k).
Proof.
  intros q m k Hm Hk w. unfold bind. destruct (Hm w) as (H1 & H2).
  destruct (m w) as [[h|e] w1] eqn:E; simpl in *.
  - destruct (Hk h (H2 h w1 eq_refl) w1) as (H3 & H4).
    split; [exact (same_except_trans q _ _ _ H1 H3)|exact H4].
  - split; [exact H1|intros; discriminate].
Qed.

Lemma stays_ret : forall q h, hpath h = q -> stays q (ret h).
Proof.
  intros q h Hh w. split; [apply same_except_refl|].
  intros h' w' E. injection E as <- <-. exact Hh.
Qed.

Lemma write_stays : forall q h c, hpath h = q -> stays q (write h c).
Proof.
  intros q h c Hh w. unfold write.
  destruct (lookup (hpath h) (fs w)) as [[f|]|]; simpl.
  - destruct (write_err w); simpl; [split; [apply same_except_refl|intros; discriminate]|].
    split.
    + intros r Hr. simpl. apply lookup_fs_set_other. congruence.
    + intros h' w' E. injection E as <- <-. simpl. exact Hh.
  - split; [apply same_except_refl|intros; discriminate].
  - split; [apply same_except_refl|intros; discriminate].
Qed.

Lemma flush_fsync_ret_stays : forall q h, hpath h = q -> stays q (flush h;;; fsync h;;; ret h).
Proof.
  intros q h Hh.
  apply stays_bind_pre; [apply disk_except; apply flush_disk|intros _].
  apply stays_bind_pre; [apply disk_except; apply fsync_disk|intros _].
  apply stays_ret; exact Hh.
Qed.

Lemma write_chunks_stays : forall q pattern C positions h,
  hpath h = q -> stays q (write_chunks pattern C positions h).
Proof.
  intros q pattern C positions. unfold write_chunks.
  induction positions as [|pos positions IH]; intros h Hh; cbn [for_each].
  - apply stays_ret; exact Hh.
  - apply stays_bind_h; [|intros h1 H1; apply IH; exact H1].
    apply stays_bind_h; [apply write_stays; exact Hh|intros h1 H1].
    apply stays_bind_pre; [apply disk_except; apply flush_disk|intros _].
    apply stays_ret; exact H1.
Qed.

Lemma overwrite_pass_stays : forall q a n i h, hpath h = q -> stays q (overwrite_pass a n i h).
Proof.
  intros q a n i h Hh. unfold overwrite_pass.
  apply stays_bind_pre; [apply disk_except; apply get_overwrite_pattern_disk|intro pattern].
  unfold write_pattern.
  apply stays_bind_h; [unfold seek; apply stays_ret; exact Hh|intros h1 H1].
  apply stays_bind_h; [|intros h2 H2; apply stays_bind_pre;
                        [apply disk_except; apply flush_disk|intros _];
                        apply stays_bind_pre; [apply disk_except; apply fsync_disk|intros _];
                        apply stays_ret; exact H2].
  destruct (chunk_size a * 10 <? n).
  - apply stays_bind_pre; [apply disk_except; apply py_range_disk|intro positions].
    apply write_chunks_stays; exact H1.
  - apply write_stays; exact H1.
Qed.

Lemma passes_stay : forall q a n steps h,
  hpath h = q -> stays q (for_each steps (overwrite_pass a n) h).
Proof.
  intros q a n steps. induction steps as [|i steps IH]; intros h Hh; cbn [for_each].
  - apply stays_ret; exact Hh.
  - apply stays_bind_h; [apply overwrite_pass_stays; exact Hh|intros h1 H1; apply IH; exact H1].
Qed.

(** The rename chain of [destroy_metadata]: the file that started at [p]
    is either still named [p] or [p] holds nothing. *)
Lemma rename_attempts_moves : forall p k d t w,
  (t = p \/ lookup p (fs w) = None) ->
  forall q w', rename_attempts k d t w = (Ok q, w') -> q = p \/ lookup p (fs w') = None.
Proof.
  intros p k. induction k as [|k IH]; intros d t w Ht q w' E; simpl in E.
  - inversion E. subst. exact Ht.
  - unfold bind at 1, randint in E. cbv beta iota in E.
    set (w1 := set_rpos w _) in E.
    set (nn := path_join d _) in E.
    unfold bind at 1, try_except, bind at 1, os_rename in E.
    destruct (lookup t (fs w1)) as [n0|] eqn:Lt.
    + destruct (remove_err _ _).
      { unfold ret in E. cbv beta iota in E. inversion E. subst. exact Ht. }
      destruct (create_err _).
      { unfold ret in E. cbv beta iota in E. inversion E. subst. exact Ht. }
      destruct (lookup nn (fs w1)) as [[f0|]|] eqn:Ln.
      * unfold ret in E. cbv beta iota in E.
        eapply IH; [|exact E].
        destruct (String.eqb_spec nn p) as [->|Hne]; [left; reflexivity|right].
        unfold w1; cbn [fs set_fs set_rpos]. rewrite lookup_fs_set_other by congruence.
        destruct (String.eqb_spec p t) as [->|Hpt]; [apply lookup_fs_delete_same|].
        rewrite lookup_fs_delete_other by exact Hpt.
        destruct Ht as [Ht|Ht]; [congruence|exact Ht].
      * unfold ret in E. cbv beta iota in E. inversion E. subst. exact Ht.
      * unfold ret in E. cbv beta iota in E.
        eapply IH; [|exact E].
        destruct (String.eqb_spec nn p) as [->|Hne]; [left; reflexivity|right].
        unfold w1; cbn [fs set_fs set_rpos]. rewrite lookup_fs_set_other by congruence.
        destruct (String.eqb_spec p t) as [->|Hpt]; [apply lookup_fs_delete_same|].
        rewrite lookup_fs_delete_other by exact Hpt.
        destruct Ht as [Ht|Ht]; [congruence|exact Ht].
    + unfold raise, ret in E. cbv beta iota in E. inversion E. subst. exact Ht.
Qed.

Lemma destroy_metadata_moves : forall p w q w',
  destroy_metadata p w = (Ok q, w') -> q = p \/ lookup p (fs w') = None.
Proof.
  intros p w q w' E. unfold destroy_metadata, try_except in E.
  destruct ((random_time <- randint 0 (2 ^ 31 - 1);;
             os_utime p random_time;;; rename_attempts 3 (fst (path_split p)) p) w)
    as [[q1|e] w1] eqn:B.
  - injection E as <- <-. unfold bind at 1, randint in B. cbv beta iota in B.
    unfold bind at 1 in B.
    destruct (os_utime p _ _) as [[u|e] w2] eqn:U; [|discriminate].
    exact (rename_attempts_moves p 3 _ p w2 (or_introl eq_refl) q1 w1 B).
  - unfold bind, log_, ret in E. injection E as <- _. left. reflexivity.
Qed.

(** When [shred_file] reports success, nothing is left at the path it was
    given: the file was deleted there, or renamed away by the metadata
    step and deleted under its last name. *)
Theorem shred_success_removes_original : forall a p passes verify destroy_md w w',
  shred_file a p passes verify destroy_md w = (Ok true, w') -> lookup p (fs w') = None.
Proof.
  intros a p passes verify destroy_md w w' H.
  unfold shred_file, try_except in H.
  match type of H with
  | (match ?m w with _ => _ end) = _ => destruct (m w) as [[r|e] w1] eqn:B
  end.
  2:{ unfold bind, log_, ret in H. discriminate H. }
  injection H as -> ->.
  unfold bind at 1, os_path_exists in B.
  destruct (lookup p (fs w)) as [n0|] eqn:Ep; cbv beta iota in B.
  2:{ unfold negb, bind, log_, ret in B. discriminate B. }
  unfold negb, bind at 1 in B. rewrite is_file_locked_spec in B. cbv beta iota in B.
  destruct (match lookup p (fs w) with
            | Some (NFile f) => fwritable f && match flock f with Unlocked => false | _ => true end
            | _ => false end); [unfold raise in B; discriminate B|].
  unfold bind at 1 in B.
  destruct (os_path_getsize p w) as [[n|e] w2] eqn:G; [|discriminate B].
  assert (W2 : w2 = w) by (unfold os_path_getsize in G; destruct (lookup p (fs w)) as [[f|]|];
                            inversion G; reflexivity). subst w2.
  unfold bind at 1 in B.
  set (dm := if destroy_md then destroy_metadata p else ret p) in B.
  destruct (dm w) as [[q|e] w3] eqn:D; [|discriminate B].
  assert (Hq : q = p \/ lookup p (fs w3) = None).
  { unfold dm in D. destruct destroy_md.
    - exact (destroy_metadata_moves p w q w3 D).
    - unfold ret in D. injection D as <- _. left. reflexivity. }
  unfold bind at 1 in B.
  destruct (open_rw q w3) as [[h|e] w4] eqn:O; [|discriminate B].
  assert (Hh : hpath h = q /\ w4 = w3).
  { unfold open_rw in O. destruct (lookup q (fs w3)) as [[f|]|]; [|discriminate O|discriminate O].
    destruct (fwritable f); inversion O; auto. }
  destruct Hh as [Hh ->].
  unfold bind at 1 in B.
  pose proof (with_file_pres (same_except q) (same_except_refl q) (same_except_trans q) h
                (for_each (zrange 0 passes) (overwrite_pass a n) h)
                (fun w0 => proj1 (passes_stay q a n _ h Hh w0)) w3) as X.
  destruct (with_file h (for_each (zrange 0 passes) (overwrite_pass a n) h) w3)
    as [[h5|e] w5] eqn:WF; [|discriminate B]. cbn [snd] in X.
  unfold bind at 1, os_remove in B.
  destruct (lookup q (fs w5)) as [[f5|]|]; [|discriminate B|discriminate B].
  destruct (remove_err _ _); [discriminate B|].
  unfold bind at 1 in B. rewrite verification_step_ok in B.
  unfold bind, log_, ret in B. injection B as <-. cbn [fs set_fs add_log].
  destruct (String.eqb_spec p q) as [->|Hne]; [apply lookup_fs_delete_same|].
  rewrite lookup_fs_delete_other by exact Hne. rewrite (X p Hne).
  destruct Hq as [Hq|Hq]; [congruence|exact Hq].
Qed.

Lemma shred_success_removes_original_witness :
  let r := shred_file (cli_app 2 []) "/home/alice/a.txt" 3 true true demo_world in
  r = (Ok true, snd r) /\ lookup "/home/alice/a.txt" (fs (snd r)) = None.
Proof.
  intro r.
  assert (H : r = (Ok true, snd r)) by (vm_compute; reflexivity).
  split; [exact H|].
  exact (shred_success_removes_original (cli_app 2 []) "/home/alice/a.txt" 3 true true
           demo_world (snd r) H).
Defined.

(** A path that does not exist is reported ("File not found") and
    [shred_file] returns [False] without touching anything else. *)
Theorem shred_missing_file : forall a p passes verify destroy_md w,
  lookup p (fs w) = None ->
  shred_file a p passes verify destroy_md w = (Ok false, add_log w (LNotFound p)).
Proof.
  intros a p passes verify destroy_md w E.
  unfold shred_file, try_except, bind, os_path_exists. rewrite E. reflexivity.
Qed.

Lemma shred_missing_file_witness :
  lookup "/home/alice/none" (fs demo_world) = None /\
  shred_file (cli_app 2 []) "/home/alice/none" 3 true true demo_world
    = (Ok false, add_log demo_world (LNotFound "/home/alice/none")).
Proof.
  split; [reflexivity|]. apply shred_missing_file. reflexivity.
Defined.

(** ** Metadata destruction *)

Lemma randint_spec : forall a b w, a <= b ->
  exists n, randint a b w = (Ok n, set_rpos w (rpos w + 1)) /\ a <= n <= b.
Proof.
  intros a b w Hab. eexists. split; [reflexivity|].
  pose proof (Z.mod_pos_bound (rng w (rpos w)) (b - a + 1) ltac:(lia)). lia.
Qed.

(** The rename chain moves the node it starts from and ends on its start
    name or on a name [shred_N] of the given directory. *)
Lemma rename_attempts_keeps : forall k d t w N,
  lookup t (fs w) = Some N ->
  exists q w', rename_attempts k d t w = (Ok q, w') /\ lookup q (fs w') = Some N /\
    (q = t \/ exists n, 0 <= n <= 9999999 /\ q = path_join d ("shred_" ++ str_of_Z n)).
Proof.
  induction k as [|k IH]; intros d t w N E.
  - exists t, w. split; [reflexivity|]. split; [exact E|left; reflexivity].
  - cbn [rename_attempts]. unfold bind at 1.
    destruct (randint_spec 0 9999999 w ltac:(lia)) as (n & R & Hn). rewrite R.
    set (w1 := set_rpos w (rpos w + 1)).
    set (nn := path_join d ("shred_" ++ str_of_Z n)).
    assert (E1 : lookup t (fs w1) = Some N) by exact E.
    unfold bind at 1, try_except, bind at 1, os_rename. rewrite E1.
    destruct (remove_err _ _).
    { unfold ret. cbv beta iota. exists t, w1.
      split; [reflexivity|]. split; [exact E1|left; reflexivity]. }
    destruct (create_err _).
    { unfold ret. cbv beta iota. exists t, w1.
      split; [reflexivity|]. split; [exact E1|left; reflexivity]. }
    destruct (lookup nn (fs w1)) as [[f0|]|] eqn:Ln.
    + unfold ret. cbv beta iota.
      destruct (IH d nn (set_fs w1 (fs_set nn N (fs_delete t (fs w1)))) N
                  ltac:(apply lookup_fs_set)) as (q & w' & Eq & L & Hq).
      exists q, w'. split; [exact Eq|]. split; [exact L|].
      destruct Hq as [->|Hq]; right; [exists n; split; [lia|reflexivity]|exact Hq].
    + unfold raise, ret. cbv beta iota. exists t, w1.
      split; [reflexivity|]. split; [exact E1|left; reflexivity].
    + unfold ret. cbv beta iota.
      destruct (IH d nn (set_fs w1 (fs_set nn N (fs_delete t (fs w1)))) N
                  ltac:(apply lookup_fs_set)) as (q & w' & Eq & L & Hq).
      exists q, w'. split; [exact Eq|]. split; [exact L|].
      destruct Hq as [->|Hq]; right; [exists n; split; [lia|reflexivity]|exact Hq].
Qed.

(** The rename chain neither writes nor logs. *)
Lemma rename_attempts_wlog_log : forall k d t w,
  wlog (snd (rename_attempts k d t w)) = wlog w /\ log (snd (rename_attempts k d t w)) = log w.
Proof.
  induction k as [|k IH]; intros d t w; [split; reflexivity|].
  cbn [rename_attempts]. unfold bind, randint, try_except, os_rename, raise, ret. cbv beta iota.
  set (w1 := set_rpos w _). set (nn := path_join d _).
  destruct (lookup t (fs w1)) as [n0|]; [|split; reflexivity].
  destruct (remove_err _ _); [split; reflexivity|].
  destruct (create_err _); [split; reflexivity|].
  destruct (lookup nn (fs w1)) as [[f0|]|]; cbv beta iota; try (split; reflexivity);
    destruct (IH d nn (set_fs w1 (fs_set nn n0 (fs_delete t (fs w1))))) as [A B];
    rewrite A, B; split; reflexivity.
Qed.

(** [destroy_metadata] on a regular file owned by the process. *)
Lemma destroy_metadata_owned : forall p w f,
  lookup p (fs w) = Some (NFile f) -> fowned f = true ->
  exists q t w', destroy_metadata p w = (Ok q, w') /\
    lookup q (fs w') = Some (NFile (File (fdata f) (fwritable f) (flock f) t (fowned f))) /\
    0 <= t <= 2 ^ 31 - 1 /\ wlog w' = wlog w /\ log w' = log w /\
    (q = p \/ exists n, 0 <= n <= 9999999 /\
                        q = path_join (fst (path_split p)) ("shred_" ++ str_of_Z n)).
Proof.
  intros p w f E Ho. destruct f as [fd fw fl fm fo]; cbn [fowned] in Ho; subst fo.
  destruct (randint_spec 0 (2 ^ 31 - 1) w ltac:(lia)) as (t & R & Ht).
  set (w1 := set_rpos w (rpos w + 1)) in R.
  cbn [fdata fwritable flock fowned].
  set (N := NFile (File fd fw fl t true)).
  set (w2 := set_fs w1 (fs_set p N (fs w1))).
  destruct (rename_attempts_keeps 3 (fst (path_split p)) p w2 N ltac:(apply lookup_fs_set))
    as (q & w' & Eq & L & Hq).
  pose proof (rename_attempts_wlog_log 3 (fst (path_split p)) p w2) as WL.
  rewrite Eq in WL. cbn [snd] in WL.
  exists q, t, w'.
  unfold destroy_metadata, try_except, bind at 1. rewrite R.
  unfold bind at 1, os_utime.
  assert (E1 : lookup p (fs w1) = Some (NFile (File fd fw fl fm true))) by exact E.
  rewrite E1. cbn [fowned fdata fwritable flock]. fold N. fold w2. rewrite Eq.
  split; [reflexivity|]. split; [exact L|]. split; [exact Ht|].
  destruct WL as [W1 L1]. split; [exact W1|]. split; [exact L1|exact Hq].
Qed.

(** [destroy_metadata] on a regular file the process does not own: the
    [os.utime] call raises EPERM, the warning is logged and the path is
    returned unchanged. *)
Lemma destroy_metadata_not_owned : forall p w f,
  lookup p (fs w) = Some (NFile f) -> fowned f = false ->
  destroy_metadata p w = (Ok p, add_log (set_rpos w (rpos w + 1)) (LMetaWarn (OSError EPERM))).
Proof.
  intros p w f E Ho.
  unfold destroy_metadata, try_except, bind at 1, randint. cbv beta iota.
  unfold bind at 1, os_utime. cbn [fs set_rpos]. rewrite E, Ho. reflexivity.
Qed.

(** [destroy_metadata] on a regular file: when the process owns it, the
    file keeps its contents, gets a timestamp in [0, 2^31 - 1] and the
    call returns the name the file now has, the given path or [shred_N]
    (0 <= N <= 9999999) in the same directory; when it does not, setting
    the timestamp raises EPERM, the warning is logged and the path is
    returned with the file system unchanged. *)
Theorem destroy_metadata_keeps_contents : forall p w f,
  lookup p (fs w) = Some (NFile f) ->
  (fowned f = true ->
   exists q t w', destroy_metadata p w = (Ok q, w') /\
     lookup q (fs w') = Some (NFile (File (fdata f) (fwritable f) (flock f) t (fowned f))) /\
     0 <= t <= 2 ^ 31 - 1 /\
     (q = p \/ exists n, 0 <= n <= 9999999 /\
                         q = path_join (fst (path_split p)) ("shred_" ++ str_of_Z n))) /\
  (fowned f = false ->
   destroy_metadata p w = (Ok p, add_log (set_rpos w (rpos w + 1)) (LMetaWarn (OSError EPERM)))).
Proof.
  intros p w f E. split.
  - intro Ho. destruct (destroy_metadata_owned p w f E Ho) as (q & t & w' & D & L & Ht & _ & _ & Hq).
    exists q, t, w'. auto.
  - apply destroy_metadata_not_owned. exact E.
Qed.

Lemma destroy_metadata_keeps_contents_witness :
  (exists q t w', destroy_metadata "/home/alice/a.txt" demo_world = (Ok q, w') /\
    lookup q (fs w') = Some (NFile (mkfile [1; 2; 3] true Unlocked t)) /\
    0 <= t <= 2 ^ 31 - 1 /\
    (q = "/home/alice/a.txt" \/ exists n, 0 <= n <= 9999999 /\
       q = path_join (fst (path_split "/home/alice/a.txt")) ("shred_" ++ str_of_Z n))) /\
  destroy_metadata "/home/alice/b.txt"
      (set_fs demo_world [("/home/alice/b.txt", NFile (File [4] true Unlocked 0 false))])
    = (Ok "/home/alice/b.txt",
       add_log (set_rpos (set_fs demo_world [("/home/alice/b.txt", NFile (File [4] true Unlocked 0 false))])
                         (rpos demo_world + 1)) (LMetaWarn (OSError EPERM))).
Proof.
  split.
  - exact (proj1 (destroy_metadata_keeps_contents "/home/alice/a.txt" demo_world
                    (mkfile [1; 2; 3] true Unlocked 0) eq_refl) eq_refl).
  - exact (proj2 (destroy_metadata_keeps_contents "/home/alice/b.txt"
                    (set_fs demo_world [("/home/alice/b.txt", NFile (File [4] true Unlocked 0 false))])
                    (File [4] true Unlocked 0 false) eq_refl) eq_refl).
Defined.



(** ** The drag-and-drop parser *)

Lemma find_aux_shift : forall c s k i,
  find_aux c s (k + i) = option_map (Nat.add k) (find_aux c s i).
Proof.
  intros c s; induction s as [|x r IH]; intros k i; cbn [find_aux].
  - reflexivity.
  - destruct (Ascii.eqb x c); [reflexivity|].
    replace (S (k + i)) with (k + S i)%nat by lia. apply IH.
Qed.

Lemma find_aux_skip : forall c p q i, ~ In c p ->
  find_aux c (p ++ q) i = find_aux c q (List.length p + i).
Proof.
  intros c p; induction p as [|x r IH]; intros q i Hn; cbn [find_aux List.app List.length].
  - reflexivity.
  - destruct (Ascii.eqb x c) eqn:E.
    + apply Ascii.eqb_eq in E. subst. exfalso. apply Hn. left. reflexivity.
    + rewrite IH by (intro H; apply Hn; right; exact H). f_equal. lia.
Qed.

Lemma skipn_app_length : forall {A} (p q : list A) j,
  skipn (List.length p + j) (p ++ q) = skipn j q.
Proof. intros A p; induction p as [|x r IH]; intros q j; [reflexivity|exact (IH q j)]. Qed.

Lemma str_find_app : forall p q c j,
  str_find (p ++ q) c (List.length p + j) = option_map (Nat.add (List.length p)) (str_find q c j).
Proof.
  intros p q c j. unfold str_find. rewrite skipn_app_length. apply find_aux_shift.
Qed.

Lemma str_slice_app : forall p q i j,
  str_slice (p ++ q) (List.length p + i) (List.length p + j) = str_slice q i j.
Proof.
  intros p q i j. unfold str_slice. rewrite skipn_app_length. f_equal. lia.
Qed.

(** The loop reads [s] only from [start] on. *)
Lemma brace_loop_app : forall f p q j,
  brace_loop f (p ++ q) (List.length p + j) = brace_loop f q j.
Proof.
  induction f as [|f IH]; intros p q j; [reflexivity|].
  cbn [brace_loop]. rewrite str_find_app.
  destruct (str_find q "}"%char j) as [e|]; cbn [option_map]; [|reflexivity].
  replace (List.length p + j + 1)%nat with (List.length p + (j + 1))%nat by lia.
  rewrite str_slice_app, str_find_app.
  destruct (str_find q "{"%char e) as [st|]; cbn [option_map]; [|reflexivity].
  rewrite IH. reflexivity.
Qed.

Definition chunks_ok (l : list (list ascii * list ascii)) : Prop :=
  Forall (fun x => ~ In "}"%char (fst x) /\ ~ In "{"%char (snd x)) l.

Lemma find_aux_other : forall c x r i, Ascii.eqb x c = false ->
  find_aux c (x :: r) i = find_aux c r (S i).
Proof. intros c x r i E. cbn [find_aux]. rewrite E. reflexivity. Qed.

Lemma find_aux_here : forall c r i, find_aux c (c :: r) i = Some i.
Proof. intros c r i. cbn [find_aux]. rewrite Ascii.eqb_refl. reflexivity. Qed.

Lemma drop_chunk_eq : forall it sep R,
  drop_chunk (it, sep) ++ R = "{"%char :: it ++ "}"%char :: sep ++ R.
Proof. intros. unfold drop_chunk. cbn [fst snd]. rewrite <- app_comm_cons, <- app_assoc. reflexivity. Qed.

Lemma chunk_close : forall it sep R, ~ In "}"%char it ->
  str_find (drop_chunk (it, sep) ++ R) "}"%char 0 = Some (S (List.length it)).
Proof.
  intros it sep R Hit. rewrite drop_chunk_eq. unfold str_find. cbn [skipn].
  rewrite find_aux_other by reflexivity.
  rewrite find_aux_skip by exact Hit. rewrite find_aux_here. f_equal. lia.
Qed.

Lemma chunk_slice : forall it sep R,
  str_slice (drop_chunk (it, sep) ++ R) (0 + 1) (S (List.length it)) = it.
Proof.
  intros it sep R. rewrite drop_chunk_eq. unfold str_slice. cbn [skipn Nat.add].
  rewrite Nat.sub_succ, Nat.sub_0_r.
  rewrite <- (Nat.add_0_r (List.length it)) at 1. rewrite firstn_app_2. apply app_nil_r.
Qed.

Lemma chunk_next : forall it sep R, ~ In "{"%char sep ->
  str_find (drop_chunk (it, sep) ++ R) "{"%char (S (List.length it)) =
  option_map (Nat.add (List.length (drop_chunk (it, sep)))) (str_find R "{"%char 0).
Proof.
  intros it sep R Hsep. rewrite drop_chunk_eq.
  change ("{"%char :: it ++ "}"%char :: sep ++ R) with ((["{"%char] ++ it) ++ "}"%char :: sep ++ R).
  replace (S (List.length it)) with (List.length (["{"%char] ++ it) + 0)%nat
    by (rewrite length_app; cbn; lia).
  rewrite str_find_app. unfold str_find at 1. cbn [skipn].
  rewrite find_aux_other by reflexivity.
  rewrite find_aux_skip by exact Hsep.
  replace (List.length sep + 1)%nat with (List.length sep + 1 + 0)%nat by lia.
  rewrite find_aux_shift. unfold str_find. cbn [skipn].
  destruct (find_aux "{"%char R 0); cbn [option_map]; [|reflexivity].
  f_equal. unfold drop_chunk. rewrite length_app. cbn [fst snd List.length]. rewrite length_app. cbn. lia.
Qed.

Lemma brace_loop_chunks : forall l x f,
  chunks_ok (x :: l) -> (List.length l < f)%nat ->
  brace_loop f (drop_chunk x ++ List.concat (map drop_chunk l)) 0 = fst x :: map fst l.
Proof.
  induction l as [|y l IH]; intros [it sep] f Hok Hf;
    (destruct f as [|f]; [lia|]);
    inversion Hok as [|? ? [Hit Hsep] Hrest]; subst; cbn [fst snd] in *;
    cbn [brace_loop]; rewrite chunk_close by exact Hit;
    rewrite chunk_slice; rewrite chunk_next by exact Hsep.
  - reflexivity.
  - cbn [List.concat map]. unfold str_find at 1. destruct y as [it' sep'].
    rewrite drop_chunk_eq. cbn [skipn]. rewrite find_aux_here. cbn [option_map].
    rewrite Nat.add_0_r. rewrite <- (Nat.add_0_r (List.length (drop_chunk (it, sep)))).
    rewrite brace_loop_app, <- drop_chunk_eq. rewrite (IH (it', sep')); [reflexivity|exact Hrest|cbn [List.length] in Hf; lia].
Qed.

Lemma drop_chunk_length : forall x,
  List.length (drop_chunk x) = (List.length (fst x) + List.length (snd x) + 2)%nat.
Proof. intros x. unfold drop_chunk. cbn [List.length]. rewrite length_app. cbn [List.length]. lia. Qed.

Lemma chunks_length : forall l,
  (2 * List.length l <= List.length (List.concat (map drop_chunk l)))%nat.
Proof.
  induction l as [|x l IH]; [cbn; lia|].
  cbn [map List.concat List.length]. rewrite length_app, drop_chunk_length. lia.
Qed.

(** A Windows drop [lead{p1}sep1{p2}sep2...{pn}sepn], where no path holds
    a closing brace and no separator (nor [lead]) an opening one, gives
    exactly the items [p1; ...; pn]: the text between the braced paths is
    ignored and the paths are not split at their spaces. *)
Theorem drop_items_braced : forall lead l,
  l <> [] -> ~ In "{"%char lead -> chunks_ok l ->
  drop_items (lead ++ List.concat (map drop_chunk l)) = map fst l.
Proof.
  intros lead [|[it sep] l] Hne Hlead Hok; [congruence|].
  cbn [map List.concat]. set (C := drop_chunk (it, sep) ++ List.concat (map drop_chunk l)).
  unfold drop_items.
  assert (Eo : existsb (Ascii.eqb "{"%char) (lead ++ C) = true).
  { apply existsb_exists. exists "{"%char. split; [|apply Ascii.eqb_refl].
    apply in_or_app. right. unfold C. rewrite drop_chunk_eq. left. reflexivity. }
  assert (Ec : existsb (Ascii.eqb "}"%char) (lead ++ C) = true).
  { apply existsb_exists. exists "}"%char. split; [|apply Ascii.eqb_refl].
    apply in_or_app. right. unfold C. rewrite drop_chunk_eq. right.
    apply in_or_app. right. left. reflexivity. }
  rewrite Eo, Ec. cbn [andb].
  assert (Ef : str_find (lead ++ C) "{"%char 0 = Some (List.length lead + 0)%nat).
  { unfold str_find. cbn [skipn]. rewrite find_aux_skip by exact Hlead.
    unfold C. rewrite drop_chunk_eq. apply find_aux_here. }
  rewrite Ef, brace_loop_app. unfold C. apply brace_loop_chunks; [exact Hok|].
  pose proof (chunks_length l). rewrite !length_app, drop_chunk_length. lia.
Qed.

Lemma drop_items_braced_witness :
  drop_items (list_ascii_of_string " " ++ List.concat (map drop_chunk
     [(list_ascii_of_string "/home/alice/my file.txt", list_ascii_of_string " ");
      (list_ascii_of_string "/home/alice/b.txt", list_ascii_of_string " tail")]))
  = [list_ascii_of_string "/home/alice/my file.txt"; list_ascii_of_string "/home/alice/b.txt"].
Proof.
  apply (drop_items_braced (list_ascii_of_string " ")
     [(list_ascii_of_string "/home/alice/my file.txt", list_ascii_of_string " ");
      (list_ascii_of_string "/home/alice/b.txt", list_ascii_of_string " tail")]).
  - discriminate.
  - cbn. intuition discriminate.
  - repeat constructor; cbn; intuition discriminate.
Defined.

(** ** The file list *)

Lemma py_in_iff : forall x l, py_in x l = true <-> In x l.
Proof.
  intros x l. unfold py_in. rewrite existsb_exists. split.
  - intros (y & Hy & E). apply String.eqb_eq in E. subst. exact Hy.
  - intros H. exists x. split; [exact H|apply String.eqb_refl].
Qed.

Lemma py_in_false : forall x l, py_in x l = false <-> ~ In x l.
Proof.
  intros x l. rewrite <- py_in_iff. destruct (py_in x l); split; congruence.
Qed.

Lemma set_files_files : forall a l, files_to_shred (set_files a l) = l.
Proof. reflexivity. Qed.

Lemma set_files_twice : forall a l l', set_files (set_files a l) l' = set_files a l'.
Proof. reflexivity. Qed.

(** The path guard does not read the file list. *)
Lemma set_files_guard : forall a l p,
  is_protected_location (set_files a l) p = is_protected_location a p.
Proof. reflexivity. Qed.

(** A loop that appends each path it meets at most once, when the path is
    not listed yet and passes a filter, appends exactly the fresh accepted
    paths, each once. *)
Section Appends.
Variables (S : Type) (get : S -> list string) (cnt : S -> Z) (ok : string -> bool)
          (inv : S -> Prop) (step : S -> string -> S).
Hypothesis step_inv : forall s x, inv s -> inv (step s x).
Hypothesis step_spec : forall s x, inv s ->
  (py_in x (get s) = false /\ ok x = true /\ get (step s x) = get s ++ [x] /\
   cnt (step s x) = cnt s + 1) \/
  ((py_in x (get s) = true \/ ok x = false) /\ get (step s x) = get s /\
   cnt (step s x) = cnt s).

Lemma fold_appends : forall l s, inv s -> exists new,
  inv (fold_left step l s) /\
  get (fold_left step l s) = get s ++ new /\
  cnt (fold_left step l s) = cnt s + Z.of_nat (List.length new) /\ NoDup new /\
  forall x, In x new <-> In x l /\ ~ In x (get s) /\ ok x = true.
Proof.
  induction l as [|y l IH]; intros s Hs.
  - exists []. rewrite app_nil_r. split; [exact Hs|]. split; [reflexivity|]. split; [cbn; lia|].
    split; [constructor|]. intros x; cbn; tauto.
  - cbn [fold_left]. destruct (IH (step s y) (step_inv s y Hs)) as (new & Hi & Eg & Ec & Hnd & Hin).
    destruct (step_spec s y Hs) as [(Hy & Ho & Gy & Cy)|(Hy & Gy & Cy)].
    + apply py_in_false in Hy. exists (y :: new). split; [exact Hi|].
      rewrite Eg, Gy, <- app_assoc. split; [reflexivity|].
      split; [rewrite Ec, Cy; cbn [List.length]; lia|].
      split.
      * constructor; [|exact Hnd]. intros H. apply Hin in H. rewrite Gy in H.
        apply (proj1 (proj2 H)), in_or_app. right. left. reflexivity.
      * intros x. split.
        -- intros [<-|H]; [split; [left; reflexivity|split; assumption]|].
           apply Hin in H. rewrite Gy in H. destruct H as (H1 & H2 & H3).
           split; [right; exact H1|]. split; [|exact H3].
           intros H4. apply H2, in_or_app. left. exact H4.
        -- intros ([<-|H1] & H2 & H3); [left; reflexivity|].
           destruct (string_dec x y) as [->|Hne]; [left; reflexivity|right].
           apply Hin. rewrite Gy. split; [exact H1|]. split; [|exact H3].
           intros H4. apply in_app_or in H4. destruct H4 as [H4|[H4|[]]]; [exact (H2 H4)|congruence].
    + exists new. split; [exact Hi|]. rewrite Eg, Gy. split; [reflexivity|]. split; [rewrite Ec, Cy; lia|].
      split; [exact Hnd|]. intros x. rewrite Hin, Gy. split.
      * intros (H1 & H2 & H3). split; [right; exact H1|split; assumption].
      * intros ([<-|H1] & H2 & H3); [|split; [exact H1|split; assumption]].
        exfalso. destruct Hy as [Hy|Hy]; [apply py_in_iff in Hy; exact (H2 Hy)|congruence].
Qed.
End Appends.

Lemma add_files_spec : forall chosen a m, exists new,
  fst (add_files chosen (a, m)) = set_files a (files_to_shred a ++ new) /\ NoDup new /\
  forall x, In x new <-> In x chosen /\ ~ In x (files_to_shred a) /\
                         is_protected_location a x = false.
Proof.
  intros chosen a m. unfold add_files.
  match goal with |- context [fold_left ?st chosen (a, m)] => set (step := st) end.
  destruct (fold_appends uistate (fun s => files_to_shred (fst s))
              (fun s => Z.of_nat (List.length (files_to_shred (fst s))))
              (fun x => negb (is_protected_location a x))
              (fun s => fst s = set_files a (files_to_shred (fst s))) step)
    with (l := chosen) (s := (a, m)) as (new & Inv & Eg & _ & Hnd & Hin).
  - intros [a1 m1] x E. cbn [fst] in E. unfold step. cbv beta iota.
    destruct (py_in x (files_to_shred a1)); [exact E|].
    destruct (is_protected_location a1 x); [exact E|]. cbn [fst]. rewrite E. reflexivity.
  - intros [a1 m1] x E. cbn [fst] in E |- *. unfold step. cbv beta iota.
    assert (G : is_protected_location a1 x = is_protected_location a x) by (rewrite E; reflexivity).
    destruct (py_in x (files_to_shred a1)) eqn:Hp.
    + right. split; [left; reflexivity|split; reflexivity].
    + rewrite G. destruct (is_protected_location a x).
      * right. split; [right; reflexivity|split; reflexivity].
      * left. split; [reflexivity|]. split; [reflexivity|]. cbn [fst].
        split; [reflexivity|]. rewrite set_files_files, length_app. cbn [List.length]. lia.
  - destruct a; reflexivity.
  - exists new. cbn [fst] in Eg. split; [rewrite Inv, Eg; reflexivity|]. split; [exact Hnd|].
    intros x. rewrite Hin. cbn [fst]. rewrite Bool.negb_true_iff. tauto.
Qed.

Lemma add_folder_contents_spec : forall walk folder a m, exists new,
  add_folder_contents walk folder (a, m) =
    ((set_files a (files_to_shred a ++ new), m), Z.of_nat (List.length new)) /\ NoDup new /\
  forall x, In x new <-> In x (walk folder) /\ ~ In x (files_to_shred a) /\
                         is_protected_location a x = false.
Proof.
  intros walk folder a m. unfold add_folder_contents.
  match goal with |- context [fold_left ?st (walk folder) ((a, m), 0)] => set (step := st) end.
  destruct (fold_appends (uistate * Z) (fun s => files_to_shred (fst (fst s))) snd
              (fun x => negb (is_protected_location a x))
              (fun s => fst (fst s) = set_files a (files_to_shred (fst (fst s))) /\ snd (fst s) = m)
              step)
    with (l := walk folder) (s := ((a, m), 0)) as (new & Inv & Eg & Ec & Hnd & Hin).
  - intros [[a1 m1] n1] x [E Em]. cbn [fst snd] in E, Em. unfold step. cbv beta iota.
    destruct (negb (py_in x (files_to_shred a1)) && negb (is_protected_location a1 x));
      cbn [fst snd]; [rewrite E at 1; split; [reflexivity|exact Em]|split; [exact E|exact Em]].
  - intros [[a1 m1] n1] x [E Em]. cbn [fst snd] in E, Em |- *. unfold step. cbv beta iota.
    assert (G : is_protected_location a1 x = is_protected_location a x) by (rewrite E; reflexivity).
    rewrite G. destruct (py_in x (files_to_shred a1)) eqn:Hp.
    + right. split; [left; reflexivity|split; reflexivity].
    + destruct (is_protected_location a x).
      * right. split; [right; reflexivity|split; reflexivity].
      * left. split; [reflexivity|]. split; [reflexivity|]. split; reflexivity.
  - split; [destruct a; reflexivity|reflexivity].
  - exists new. unfold uistate in *. destruct (fold_left step (walk folder) (a, m, 0)) as [[a' m'] n].
    destruct Inv as [Ia Im]. cbn [fst snd] in *. subst m'. rewrite Ia, Eg, Ec.
    split; [reflexivity|]. split; [exact Hnd|].
    intros x. rewrite Hin. rewrite Bool.negb_true_iff. tauto.
Qed.

(** [add_files] appends to [files_to_shred] exactly the chosen paths that
    are neither listed yet nor in a protected location, each once (a path
    chosen twice is added once), and keeps the paths already listed. *)
Theorem add_files_appends_fresh : forall chosen a m, exists new,
  files_to_shred (fst (add_files chosen (a, m))) = files_to_shred a ++ new /\ NoDup new /\
  forall x, In x new <-> In x chosen /\ ~ In x (files_to_shred a) /\
                         is_protected_location a x = false.
Proof.
  intros chosen a m. destruct (add_files_spec chosen a m) as (new & E & Hnd & Hin).
  exists new. rewrite E. split; [reflexivity|split; assumption].
Qed.

(** [_add_folder_contents] returns the number of paths it appended to
    [files_to_shred]; it appends exactly the paths [os.walk] lists that are
    neither listed yet nor protected, each once, and logs nothing. *)
Theorem add_folder_contents_count : forall walk folder a m,
  let '((a', m'), added) := add_folder_contents walk folder (a, m) in
  exists new, files_to_shred a' = files_to_shred a ++ new /\
    added = Z.of_nat (List.length new) /\ m' = m /\ NoDup new /\
    forall x, In x new <-> In x (walk folder) /\ ~ In x (files_to_shred a) /\
                           is_protected_location a x = false.
Proof.
  intros walk folder a m. destruct (add_folder_contents_spec walk folder a m) as (new & E & Hnd & Hin).
  rewrite E. exists new. split; [reflexivity|]. split; [reflexivity|]. split; [reflexivity|].
  split; assumption.
Qed.

(** [on_drop] appends to [files_to_shred] only paths that are not listed
    yet, each once, none in a protected location; each is a dropped item
    (stripped) that is a regular file, or a file [os.walk] lists under a
    dropped item that is a directory.  The messages it logs are "Added"
    lines (a file, or k items from a folder), followed by the warning
    "Only added k of n items" exactly when it appended fewer paths [k] than
    the drop has items [n]. *)
Theorem on_drop_appends_fresh : forall walk d data a m,
  let '(a', m') := on_drop walk d data (a, m) in
  exists new mid, files_to_shred a' = files_to_shred a ++ new /\ NoDup new /\
    (forall x, In x new -> ~ In x (files_to_shred a) /\ is_protected_location a x = false /\
       exists item0, In item0 (drop_items data) /\
         ((x = string_of_list_ascii (strip item0) /\ is_file d x = true) \/
          (is_dir d (string_of_list_ascii (strip item0)) = true /\
           In x (walk (string_of_list_ascii (strip item0)))))) /\
    (forall u, In u mid -> (exists p, u = UAddedFile p) \/ (exists k p, u = UAddedFromFolder k p)) /\
    m' = m ++ mid ++
         (if Z.of_nat (List.length new) <? Z.of_nat (List.length (drop_items data))
          then [UOnlyAdded (Z.of_nat (List.length new)) (Z.of_nat (List.length (drop_items data)))]
          else []).
Proof.
  intros walk d data a m. unfold on_drop.
  match goal with |- context [fold_left ?st (drop_items data) ?s0] => set (step := st) end.
  set (inv := fun (s : uistate * Z) => exists new mid,
    fst (fst s) = set_files a (files_to_shred a ++ new) /\
    snd (fst s) = m ++ mid /\
    (forall u, In u mid -> (exists p, u = UAddedFile p) \/ (exists k p, u = UAddedFromFolder k p)) /\
    snd s = Z.of_nat (List.length new) /\ NoDup new /\
    forall x, In x new -> ~ In x (files_to_shred a) /\ is_protected_location a x = false /\
       exists item0, In item0 (drop_items data) /\
         ((x = string_of_list_ascii (strip item0) /\ is_file d x = true) \/
          (is_dir d (string_of_list_ascii (strip item0)) = true /\
           In x (walk (string_of_list_ascii (strip item0)))))).
  assert (L : forall items s, (forall i, In i items -> In i (drop_items data)) ->
                              inv s -> inv (fold_left step items s)).
  { induction items as [|item0 items IH]; intros s Hi Hs; [exact Hs|].
    cbn [fold_left]. apply IH; [intros i Hx; apply Hi; right; exact Hx|].
    assert (H0 : In item0 (drop_items data)) by (apply Hi; left; reflexivity).
    clear IH Hi.
    destruct s as [[a1 m1] n1]. destruct Hs as (new & mid & Ea & Em & Hg & En & Hnd & Hin).
    cbn [fst snd] in Ea, Em, En. subst a1 m1 n1.
    unfold step. cbv beta iota zeta.
    set (item := string_of_list_ascii (strip item0)).
    destruct (String.eqb item EmptyString).
    { exists new, mid. split; [reflexivity|]. split; [reflexivity|]. split; [exact Hg|].
      split; [reflexivity|]. split; assumption. }
    rewrite set_files_files, set_files_guard.
    destruct (is_file d item && negb (py_in item (files_to_shred a ++ new))) eqn:Hf.
    - apply andb_true_iff in Hf. destruct Hf as [Hf Hn].
      apply Bool.negb_true_iff, py_in_false in Hn.
      destruct (negb (is_protected_location a item)) eqn:Hp.
      2:{ exists new, mid. split; [reflexivity|]. split; [reflexivity|]. split; [exact Hg|].
          split; [reflexivity|]. split; assumption. }
      apply Bool.negb_true_iff in Hp.
      exists (new ++ [item]), (mid ++ [UAddedFile item]). cbn [fst snd].
      split; [rewrite set_files_twice, app_assoc; reflexivity|].
      split; [rewrite app_assoc; reflexivity|].
      split.
      { intros u Hu. apply in_app_or in Hu. destruct Hu as [Hu|[<-|[]]]; [exact (Hg u Hu)|].
        left. eexists. reflexivity. }
      split; [rewrite length_app; cbn [List.length]; lia|]. split.
      + apply NoDup_app; [exact Hnd|constructor; [intros []|constructor]|].
        intros x Hx [<-|[]]. apply Hn, in_or_app. right. exact Hx.
      + intros x Hx. apply in_app_or in Hx. destruct Hx as [Hx|[<-|[]]]; [exact (Hin x Hx)|].
        split; [intros H; apply Hn, in_or_app; left; exact H|]. split; [exact Hp|].
        exists item0. split; [exact H0|left; split; [reflexivity|exact Hf]].
    - destruct (is_dir d item) eqn:Hd.
      2:{ exists new, mid. split; [reflexivity|]. split; [reflexivity|]. split; [exact Hg|].
          split; [reflexivity|]. split; assumption. }
      destruct (add_folder_contents_spec walk item (set_files a (files_to_shred a ++ new)) (m ++ mid))
        as (new2 & E2 & Hnd2 & Hin2).
      rewrite E2. cbv beta iota.
      exists (new ++ new2),
        (mid ++ if 0 <? Z.of_nat (List.length new2)
                then [UAddedFromFolder (Z.of_nat (List.length new2)) item] else []).
      cbn [fst snd].
      split; [rewrite set_files_files, set_files_twice, app_assoc; reflexivity|].
      split; [destruct (0 <? _); [rewrite app_assoc; reflexivity|rewrite app_nil_r; reflexivity]|].
      split.
      { intros u Hu. apply in_app_or in Hu. destruct Hu as [Hu|Hu]; [exact (Hg u Hu)|].
        destruct (0 <? _); [|destruct Hu]. destruct Hu as [<-|[]].
        right. do 2 eexists. reflexivity. }
      split; [rewrite length_app; lia|]. split.
      + apply NoDup_app; [exact Hnd|exact Hnd2|].
        intros x Hx Hx2. apply Hin2 in Hx2. rewrite set_files_files in Hx2.
        apply (proj1 (proj2 Hx2)), in_or_app. right. exact Hx.
      + intros x Hx. apply in_app_or in Hx. destruct Hx as [Hx|Hx]; [exact (Hin x Hx)|].
        apply Hin2 in Hx. rewrite set_files_files, set_files_guard in Hx.
        destruct Hx as (H1 & H2 & H3). split; [intros H; apply H2, in_or_app; left; exact H|].
        split; [exact H3|]. exists item0. split; [exact H0|right; split; [exact Hd|exact H1]]. }
  destruct (L (drop_items data) ((a, m), 0) (fun i Hi => Hi)) as (new & mid & Ea & Em & Hg & En & Hnd & Hin).
  { exists [], []. rewrite !app_nil_r. split; [destruct a; reflexivity|]. split; [reflexivity|].
    split; [intros u []|]. split; [reflexivity|]. split; [constructor|intros x []]. }
  unfold uistate in *. destruct (fold_left step (drop_items data) (a, m, 0)) as [[a' m'] n].
  cbn [fst snd] in Ea, Em, En. subst a' m' n.
  destruct (Z.of_nat (List.length new) <? Z.of_nat (List.length (drop_items data))) eqn:Hlt;
    exists new, mid; rewrite set_files_files; split; try reflexivity; split; try exact Hnd;
    split; try exact Hin; split; try exact Hg; rewrite Hlt;
    [rewrite app_assoc; reflexivity|rewrite !app_nil_r; reflexivity].
Qed.

(** ** Command-line expansion *)

Lemma is_file_not_dir : forall d p, is_file d p = true -> is_dir d p = false.
Proof. unfold is_file, is_dir. intros d p. destruct (lookup p d) as [[f|]|]; congruence. Qed.

Lemma cli_expand_acc : forall walk d a paths acc x,
  In x (fold_left (fun acc path =>
    if is_dir d path
    then acc ++ filter (fun fp => negb (is_protected_location a fp)) (walk path)
    else if is_file d path && negb (is_protected_location a path) then acc ++ [path]
    else acc) paths acc) <->
  In x acc \/ exists path, In path paths /\
    ((is_dir d path = true /\ In x (walk path)) \/ (is_file d path = true /\ x = path)) /\
    is_protected_location a x = false.
Proof.
  intros walk d a paths. induction paths as [|p ps IH]; intros acc x; cbn [fold_left].
  - split; [intros H; left; exact H|]. intros [H|(p & [] & _)]; exact H.
  - rewrite IH. split.
    + intros [H|(q & Hq & Hk & Hp)]; [|right; exists q; split; [right; exact Hq|split; assumption]].
      destruct (is_dir d p) eqn:Hd; [|destruct (is_file d p && negb (is_protected_location a p)) eqn:Hf].
      * apply in_app_or in H. destruct H as [H|H]; [left; exact H|right].
        apply filter_In in H. destruct H as [H1 H2]. apply Bool.negb_true_iff in H2.
        exists p. split; [left; reflexivity|split; [left; split; assumption|exact H2]].
      * apply in_app_or in H. destruct H as [H|[<-|[]]]; [left; exact H|right].
        apply andb_true_iff in Hf. destruct Hf as [Hf Hp]. apply Bool.negb_true_iff in Hp.
        exists p. split; [left; reflexivity|split; [right; split; [exact Hf|reflexivity]|exact Hp]].
      * left. exact H.
    + intros [H|(q & [<-|Hq] & Hk & Hp)].
      * left. destruct (is_dir d p); [apply in_or_app; left; exact H|].
        destruct (is_file d p && negb (is_protected_location a p)); [apply in_or_app; left|]; exact H.
      * left. destruct Hk as [[Hd Hw]|[Hf ->]].
        -- rewrite Hd. apply in_or_app. right. apply filter_In. split; [exact Hw|].
           rewrite Hp. reflexivity.
        -- rewrite (is_file_not_dir d p Hf), Hf, Hp. apply in_or_app. right. left. reflexivity.
      * right. exists q. split; [exact Hq|split; assumption].
Qed.

(** [shred_files_cli] keeps exactly the unprotected regular files it is
    given and the unprotected files [os.walk] lists under the directories it
    is given. *)
Theorem cli_expand_members : forall walk d a paths x,
  In x (cli_expand walk d a paths) <->
  exists path, In path paths /\
    ((is_dir d path = true /\ In x (walk path)) \/ (is_file d path = true /\ x = path)) /\
    is_protected_location a x = false.
Proof.
  intros walk d a paths x. unfold cli_expand. rewrite cli_expand_acc.
  split; [intros [[]|H]; exact H|intros H; right; exact H].
Qed.

(** Unlike the GUI's lists, the command-line list is not deduplicated: when
    every path given is an unprotected regular file, the list to shred is
    the given list itself, repeated paths included. *)
Theorem cli_expand_keeps_duplicates : forall walk d a paths,
  Forall (fun p => is_file d p = true /\ is_protected_location a p = false) paths ->
  cli_expand walk d a paths = paths.
Proof.
  intros walk d a paths H. unfold cli_expand.
  match goal with |- fold_left ?f paths [] = _ =>
    assert (G : forall acc, fold_left f paths acc = acc ++ paths) end.
  { induction H as [|p ps [Hf Hp] _ IH]; intros acc; cbn [fold_left].
    - rewrite app_nil_r. reflexivity.
    - rewrite (is_file_not_dir d p Hf), Hf, Hp. cbn [negb andb].
      rewrite (IH (acc ++ [p])), <- app_assoc. reflexivity. }
  exact (G []).
Qed.

Lemma cli_expand_keeps_duplicates_witness :
  cli_expand (fun _ => []) (fs demo_world) (cli_app 2 [])
             ["/home/alice/a.txt"; "/home/alice/c.txt"; "/home/alice/a.txt"] =
  ["/home/alice/a.txt"; "/home/alice/c.txt"; "/home/alice/a.txt"].
Proof.
  apply cli_expand_keeps_duplicates.
  repeat constructor; vm_compute; reflexivity.
Defined.

(** [shred_files_cli] sets [files_to_shred] to the expanded list and starts
    the shredding thread, with verification and metadata destruction on,
    exactly when that list is not empty; it logs one message, never the
    "No files to shred" warning of [start_shredding]. *)
Theorem shred_files_cli_starts : forall walk d paths passes a m,
  let '((a', m'), r) := shred_files_cli walk d paths passes (a, m) in
  files_to_shred a' = cli_expand walk d a paths /\
  (r = None <-> cli_expand walk d a paths = []) /\
  (r <> None -> r = Some (passes, true, true)) /\
  exists msg, m' = m ++ [msg] /\ msg <> UNoFilesToShred.
Proof.
  intros walk d paths passes a m. unfold shred_files_cli. rewrite set_files_files.
  destruct (cli_expand walk d a paths) as [|p ps] eqn:E.
  - split; [reflexivity|]. split; [tauto|]. split; [congruence|].
    exists UNoFilesToShredCli. split; [reflexivity|discriminate].
  - unfold start_shredding_cli. rewrite set_files_files.
    split; [reflexivity|]. split; [split; discriminate|]. split; [reflexivity|].
    eexists. split; [reflexivity|discriminate].
Qed.

(** ** Pattern schedule *)

Lemma cycle_pattern_period : forall table i k s,
  cycle_pattern table (i + k * Z.of_nat (List.length table)) s = cycle_pattern table i s.
Proof.
  intros table i k s. unfold cycle_pattern.
  destruct (Z.of_nat (List.length table) =? 0) eqn:E; [reflexivity|].
  rewrite Z_mod_plus_full. reflexivity.
Qed.

(** With a list pattern or the Gutmann table, pass [i] and pass
    [i + k * len(table)] get the same pattern: the passes cycle through
    the table. *)
Theorem overwrite_pattern_cycles : forall a nm table i k file_size w,
  selected_pattern a = Some (nm, PList table) \/
  (selected_pattern a = Some (nm, PStr "gutmann") /\ table = gutmann_patterns a) ->
  get_overwrite_pattern a (i + k * Z.of_nat (List.length table)) file_size w =
  get_overwrite_pattern a i file_size w.
Proof.
  intros a nm table i k file_size w [E|[E ->]]; unfold get_overwrite_pattern; rewrite E;
    [|cbn [String.eqb Ascii.eqb Bool.eqb andb]]; rewrite cycle_pattern_period; reflexivity.
Qed.

Lemma overwrite_pattern_cycles_witness :
  get_overwrite_pattern (cli_app 2 []) (1 + 2 * 3) 5 demo_world =
  get_overwrite_pattern (cli_app 2 []) 1 5 demo_world.
Proof.
  apply (overwrite_pattern_cycles (cli_app 2 []) "DoD 5220.22-M" [[85]; [170]; [146; 73; 36; 146]]
           1 2 5 demo_world).
  left. reflexivity.
Defined.

(** ** Protected directories *)

Lemma protected_split : forall a p,
  is_protected_location a p =
  negb (in_user_dirs a p) && existsb (fun d => under_dir a d p) (protected_dirs a).
Proof.
  intros a p. unfold is_protected_location, in_user_dirs, under_dir.
  destruct (existsb _ (user_dirs (home a))); reflexivity.
Qed.

Lemma set_protected_guard : forall a l p,
  is_protected_location (set_protected a l) p =
  negb (in_user_dirs a p) && existsb (fun d => under_dir a d p) l.
Proof. intros a l p. rewrite protected_split. reflexivity. Qed.

(** Adding a protected directory protects exactly the paths under it that
    the user-directory allowlist does not exempt, on top of those already
    protected; it never unprotects a path. *)
Theorem add_protected_dir_effect : forall dir_path a p,
  is_protected_location (add_protected_dir dir_path a) p =
  is_protected_location a p ||
  (negb (String.eqb dir_path EmptyString) && negb (in_user_dirs a p) && under_dir a dir_path p).
Proof.
  intros dir_path a p. unfold add_protected_dir.
  destruct (String.eqb dir_path EmptyString) eqn:Ee; cbn [negb andb];
    [rewrite Bool.orb_false_r; reflexivity|].
  destruct (py_in dir_path (protected_dirs a)) eqn:Ein; cbn [negb andb].
  - rewrite protected_split. apply py_in_iff in Ein.
    destruct (in_user_dirs a p); cbn [negb andb orb]; [reflexivity|].
    destruct (under_dir a dir_path p) eqn:Eu; [|rewrite Bool.orb_false_r; reflexivity].
    rewrite Bool.orb_true_r. apply existsb_exists. exists dir_path. split; assumption.
  - rewrite set_protected_guard, protected_split, existsb_app. cbn [existsb].
    rewrite Bool.orb_false_r. destruct (in_user_dirs a p); reflexivity.
Qed.

Lemma in_skipn_S : forall {A} n (l : list A) x, In x (skipn (S n) l) -> In x (skipn n l).
Proof.
  intros A n l; revert n; induction l as [|y l IH]; intros n x H; [destruct n; exact H|].
  destruct n as [|n]; cbn [skipn] in *; [right; exact H|exact (IH n x H)].
Qed.

(** Removing a protected directory never protects a path that was not
    protected before. *)
Theorem remove_protected_dir_weakens : forall selection a a' p,
  remove_protected_dir selection a = Some a' ->
  is_protected_location a' p = true -> is_protected_location a p = true.
Proof.
  intros selection a a' p E H. unfold remove_protected_dir in E.
  destruct selection as [|index rest]; [congruence|].
  unfold py_pop in E. destruct (index <? List.length (protected_dirs a))%nat; [|congruence].
  injection E as <-. rewrite set_protected_guard in H. rewrite protected_split.
  apply andb_true_iff in H. destruct H as [H1 H2]. rewrite H1. cbn [andb].
  apply existsb_exists in H2. destruct H2 as (d & Hd & Hu).
  apply existsb_exists. exists d. split; [|exact Hu].
  rewrite <- (firstn_skipn index (protected_dirs a)). apply in_app_or in Hd.
  apply in_or_app. destruct Hd as [Hd|Hd]; [left; exact Hd|right].
  exact (in_skipn_S index (protected_dirs a) d Hd).
Qed.

Lemma remove_protected_dir_weakens_witness :
  remove_protected_dir [1%nat] (cli_app 2 []) = Some (set_protected (cli_app 2 []) ["/etc"]) /\
  is_protected_location (cli_app 2 []) "/etc/passwd" = true.
Proof.
  assert (E : remove_protected_dir [1%nat] (cli_app 2 []) =
              Some (set_protected (cli_app 2 []) ["/etc"])) by (vm_compute; reflexivity).
  split; [exact E|].
  apply (remove_protected_dir_weakens [1%nat] (cli_app 2 []) (set_protected (cli_app 2 []) ["/etc"])
           "/etc/passwd" E).
  vm_compute. reflexivity.
Defined.

(** ** Configuration file *)

Lemma dict_get_cons : forall k k' v d,
  dict_get k ((k', v) :: d) = if String.eqb k' k then Some v else dict_get k d.
Proof. intros. unfold dict_get. cbn [find fst]. destruct (String.eqb k' k); reflexivity. Qed.

Lemma dict_get_set : forall k k' v d,
  dict_get k (dict_set k' v d) = if String.eqb k' k then Some v else dict_get k d.
Proof.
  intros k k' v d. induction d as [|[k'' v''] d IH]; cbn [dict_set].
  - rewrite dict_get_cons. reflexivity.
  - destruct (String.eqb k' k'') eqn:E1.
    + apply String.eqb_eq in E1. subst k''. rewrite !dict_get_cons.
      destruct (String.eqb k' k); reflexivity.
    + rewrite !dict_get_cons, IH.
      destruct (String.eqb k'' k) eqn:E2; [|reflexivity].
      apply String.eqb_eq in E2. subst k''. rewrite E1. reflexivity.
Qed.

Lemma dict_get_app : forall k l1 l2,
  dict_get k (l1 ++ l2) = match dict_get k l1 with Some v => Some v | None => dict_get k l2 end.
Proof.
  intros k l1 l2. induction l1 as [|[k' v'] l1 IH]; [reflexivity|].
  rewrite <- app_comm_cons, !dict_get_cons. destruct (String.eqb k' k); [reflexivity|exact IH].
Qed.

Lemma dict_get_merge : forall k c d,
  dict_get k (dict_merge d c) =
  match dict_get k (rev c) with Some v => Some v | None => dict_get k d end.
Proof.
  intros k c. unfold dict_merge. induction c as [|[k' v'] c IH]; intros d; [reflexivity|].
  cbn [fold_left rev fst snd]. rewrite IH, dict_get_app, dict_get_cons, dict_get_set.
  destruct (dict_get k (rev c)); [reflexivity|].
  destruct (String.eqb k' k); reflexivity.
Qed.

(** [load_config] gives each key the value of its last occurrence in the
    file's top-level object, and the default value for every key the file
    does not set; a missing file, a file [json.load] fails on, or a JSON
    value other than an object gives the defaults. *)
Theorem load_config_lookup : forall file k,
  dict_get k (load_config file) =
  match file with
  | Some (Some (ODict c)) =>
      match dict_get k (rev c) with Some v => Some v | None => dict_get k DEFAULT_CONFIG end
  | _ => dict_get k DEFAULT_CONFIG
  end.
Proof.
  intros [[[]|]|] k; try reflexivity. apply dict_get_merge.
Qed.

Lemma dict_get_in : forall k d v, dict_get k d = Some v -> In (k, v) d.
Proof.
  intros k d v. induction d as [|[k' v'] d IH]; [discriminate|].
  rewrite dict_get_cons. destruct (String.eqb k' k) eqn:E.
  - apply String.eqb_eq in E. subst. intros H. injection H as <-. left. reflexivity.
  - intros H. right. exact (IH H).
Qed.

Lemma unserializable_entry : forall d k v,
  dict_get k d = Some v -> json_serializable v = false -> json_serializable (ODict d) = false.
Proof.
  intros d k v E H. cbn [json_serializable]. apply Bool.not_true_iff_false. intros Hall.
  rewrite forallb_forall in Hall. apply dict_get_in in E.
  specialize (Hall (k, v) E). cbn [snd] in Hall. congruence.
Qed.

(** Unless the configuration file sets its own [overwrite_patterns], the
    configuration holds the default patterns, which are [bytes]: saving
    the advanced options then logs "Config save error" and leaves a file
    [json.load] fails on, so the next [load_config] returns the defaults
    and the saved chunk size, worker count and protected directories are
    lost. *)
Theorem advanced_options_not_persisted : forall file cs mw dirs,
  (forall c, file = Some (Some (ODict c)) -> dict_get "overwrite_patterns" (rev c) = None) ->
  let cfg := advanced_options_config (load_config file) cs mw dirs in
  save_config true cfg file = (Some None, true) /\
  load_config (fst (save_config true cfg file)) = DEFAULT_CONFIG.
Proof.
  intros file cs mw dirs H cfg.
  assert (E : dict_get "overwrite_patterns" cfg = dict_get "overwrite_patterns" DEFAULT_CONFIG).
  { unfold cfg, advanced_options_config. rewrite !dict_get_set. cbn [String.eqb Ascii.eqb Bool.eqb andb].
    rewrite load_config_lookup.
    destruct file as [[[]|]|]; try reflexivity. rewrite (H _ eq_refl). reflexivity. }
  assert (S : json_serializable (ODict cfg) = false).
  { exact (unserializable_entry cfg "overwrite_patterns" _ E eq_refl). }
  unfold save_config. rewrite S. split; reflexivity.
Qed.

Lemma advanced_options_not_persisted_witness :
  save_config true (advanced_options_config
      (load_config (Some (Some (ODict [("chunk_size", OInt 4096)])))) 65536 8 ["/srv"])
    (Some (Some (ODict [("chunk_size", OInt 4096)]))) = (Some None, true) /\
  load_config (fst (save_config true (advanced_options_config
      (load_config (Some (Some (ODict [("chunk_size", OInt 4096)])))) 65536 8 ["/srv"])
    (Some (Some (ODict [("chunk_size", OInt 4096)]))))) = DEFAULT_CONFIG.
Proof.
  apply (advanced_options_not_persisted (Some (Some (ODict [("chunk_size", OInt 4096)])))
           65536 8 ["/srv"]).
  intros c Hc. injection Hc as <-. reflexivity.
Defined.

Lemma dict_set_keys : forall k v d,
  map fst (dict_set k v d) = if existsb (String.eqb k) (map fst d) then map fst d else map fst d ++ [k].
Proof.
  intros k v d. induction d as [|[k' v'] d IH]; [reflexivity|].
  cbn [dict_set map fst existsb]. destruct (String.eqb k k') eqn:E.
  - apply String.eqb_eq in E. subst. reflexivity.
  - cbn [map fst orb]. rewrite IH. destruct (existsb (String.eqb k) (map fst d)); reflexivity.
Qed.

Lemma dict_set_nodup : forall k v d, NoDup (map fst d) -> NoDup (map fst (dict_set k v d)).
Proof.
  intros k v d H. rewrite dict_set_keys. destruct (existsb (String.eqb k) (map fst d)) eqn:E; [exact H|].
  apply NoDup_app; [exact H|repeat constructor; intros []|].
  intros x Hx [<-|[]]. apply Bool.not_true_iff_false in E. apply E, existsb_exists.
  exists k. split; [exact Hx|apply String.eqb_refl].
Qed.

Lemma dict_merge_nodup : forall c d, NoDup (map fst d) -> NoDup (map fst (dict_merge d c)).
Proof.
  unfold dict_merge. induction c as [|kv c IH]; intros d H; [exact H|].
  cbn [fold_left]. apply IH, dict_set_nodup, H.
Qed.

Lemma dict_get_missing : forall k d, ~ In k (map fst d) -> dict_get k d = None.
Proof.
  intros k d. induction d as [|[k' v'] d IH]; intros H; [reflexivity|].
  rewrite dict_get_cons. destruct (String.eqb k' k) eqn:E.
  - apply String.eqb_eq in E. subst. exfalso. apply H. left. reflexivity.
  - apply IH. intros H'. apply H. right. exact H'.
Qed.

Lemma dict_get_rev : forall k d, NoDup (map fst d) -> dict_get k (rev d) = dict_get k d.
Proof.
  intros k d. induction d as [|[k' v'] d IH]; intros H; [reflexivity|].
  inversion H as [|? ? Hn Hd]; subst. cbn [rev]. rewrite dict_get_app, IH by exact Hd.
  rewrite !dict_get_cons. destruct (String.eqb k' k) eqn:E.
  - apply String.eqb_eq in E. subst. rewrite dict_get_missing by exact Hn. reflexivity.
  - destruct (dict_get k d); reflexivity.
Qed.

Lemma load_config_nodup : forall file, NoDup (map fst (load_config file)).
Proof.
  assert (D : NoDup (map fst DEFAULT_CONFIG)).
  { cbn. repeat constructor; cbn; intuition discriminate. }
  intros [[[]|]|]; try exact D. apply dict_merge_nodup, D.
Qed.

(** When the configuration holds only values [json.dump] accepts (the file
    set its own [overwrite_patterns] without [bytes]), the chunk size, the
    worker count and the protected directories saved by the advanced
    options are what the next [load_config] returns. *)
Theorem advanced_options_persisted : forall file cs mw dirs,
  let cfg := advanced_options_config (load_config file) cs mw dirs in
  json_serializable (ODict cfg) = true ->
  let file' := fst (save_config true cfg file) in
  dict_get "chunk_size" (load_config file') = Some (OInt cs) /\
  dict_get "max_workers" (load_config file') = Some (OInt mw) /\
  dict_get "protected_dirs" (load_config file') = Some (OList (map OStr dirs)).
Proof.
  intros file cs mw dirs cfg H file'.
  assert (Ef : file' = Some (Some (ODict cfg))) by (unfold file', save_config; rewrite H; reflexivity).
  assert (N : NoDup (map fst cfg)).
  { unfold cfg, advanced_options_config. repeat apply dict_set_nodup. apply load_config_nodup. }
  rewrite Ef. rewrite !load_config_lookup, !dict_get_rev by exact N.
  unfold cfg, advanced_options_config. rewrite !dict_get_set. cbn. auto.
Qed.

Lemma advanced_options_persisted_witness :
  json_serializable (ODict (advanced_options_config
     (load_config (Some (Some (ODict [("overwrite_patterns", OList [])])))) 65536 8 ["/srv"])) = true /\
  dict_get "chunk_size" (load_config (fst (save_config true (advanced_options_config
     (load_config (Some (Some (ODict [("overwrite_patterns", OList [])])))) 65536 8 ["/srv"])
     (Some (Some (ODict [("overwrite_patterns", OList [])])))))) = Some (OInt 65536).
Proof.
  assert (H : json_serializable (ODict (advanced_options_config
     (load_config (Some (Some (ODict [("overwrite_patterns", OList [])])))) 65536 8 ["/srv"])) = true)
    by (vm_compute; reflexivity).
  split; [exact H|].
  exact (proj1 (advanced_options_persisted (Some (Some (ODict [("overwrite_patterns", OList [])])))
                  65536 8 ["/srv"] H)).
Defined.
